(** * extract_guid_with_macos.py: recovery of a device GUID from a syslog archive

    A shallow embedding of [src/GUID-search/extract_guid_with_macos.py] and
    the properties of its four stages (reboot trigger, reconnection waiter,
    archive collector, GUID extractor) and of [main].

    - Python [str] values are lists of Unicode code points.
    - The script runs in a state and exception monad over an explicit
      [World]: the clock, the filesystem, the number of subprocesses
      started so far and the trace of what the script has done (commands,
      sleeps, prints, temporary directories).
    - What the device tools do is not part of the script.  An environment
      [Env] gives, for the n-th subprocess the script starts, its result
      (a return code with captured output, a timeout, or a failure to
      start), the time it takes and what it does to the filesystem; every
      theorem quantifies over all environments.
    - Time is counted in milliseconds.  The clock advances by the duration
      of each subprocess and by each [time.sleep]; the script's own
      computation takes no time.
    - The [while] loop of [wait_for_device] is defined by well-founded
      recursion on the time left before the deadline: every turn that does
      not return sleeps 3 seconds. *)

From Stdlib Require Import Ascii String DecimalString.
From Stdlib Require Import List ZArith NArith Lia Bool.
From Equations Require Import Equations.
From Equations.Prop Require Import Logic.
Import ListNotations.

Set Implicit Arguments.

(** ** Text *)

Module Text.

Definition char := N.
Definition str := list char.

(** A literal of the source, character by character (ASCII only). *)
Definition lit (s : string) : str := map N_of_ascii (list_ascii_of_string s).

Definition hyphen : char := 0x2D%N.

Local Open Scope N_scope.

(** [str.isspace] for one character: the code points Python treats as
    whitespace, which [str.strip()] removes. *)
Definition isspace (c : char) : bool :=
  ((0x09 <=? c) && (c <=? 0x0D)) || ((0x1C <=? c) && (c <=? 0x20))
  || (c =? 0x85) || (c =? 0xA0) || (c =? 0x1680)
  || ((0x2000 <=? c) && (c <=? 0x200A))
  || (c =? 0x2028) || (c =? 0x2029) || (c =? 0x202F) || (c =? 0x205F)
  || (c =? 0x3000).

Fixpoint lstrip (s : str) : str :=
  match s with
  | c :: s' => if isspace c then lstrip s' else s
  | [] => []
  end.

Definition rstrip (s : str) : str := rev (lstrip (rev s)).

(** [s.strip()] *)
Definition strip (s : str) : str := rstrip (lstrip s).

(** The line boundaries of [str.splitlines]. *)
Definition is_linebreak (c : char) : bool :=
  ((0x0A <=? c) && (c <=? 0x0D)) || ((0x1C <=? c) && (c <=? 0x1E))
  || (c =? 0x85) || (c =? 0x2028) || (c =? 0x2029).

(** [splitlines_from cur s]: [cur] is the line read so far, in reverse.
    A carriage return followed by a line feed is one boundary; no empty
    line is produced after a final boundary. *)
Fixpoint splitlines_from (cur : str) (s : str) : list str :=
  match s with
  | [] => match cur with [] => [] | _ :: _ => [rev cur] end
  | c :: rest =>
      if is_linebreak c then
        rev cur ::
          match rest with
          | c' :: rest' =>
              if (c =? 0x0D) && (c' =? 0x0A) then splitlines_from [] rest'
              else splitlines_from [] rest
          | [] => []
          end
      else splitlines_from (c :: cur) rest
  end.

(** [s.splitlines()] *)
Definition splitlines (s : str) : list str := splitlines_from [] s.

Fixpoint startswith (p s : str) : bool :=
  match p, s with
  | [], _ => true
  | a :: p', b :: s' => (a =? b) && startswith p' s'
  | _ :: _, [] => false
  end.

(** [needle in hay] *)
Fixpoint contains (needle hay : str) : bool :=
  startswith needle hay
  || match hay with
     | [] => false
     | _ :: hay' => contains needle hay'
     end.

(** [str.upper], on the characters it is applied to in this program: the
    text of a match of [GUID_REGEX], which is ASCII (lemma
    [search_GUID_REGEX_ascii] below). *)
Definition upper_char (c : char) : char :=
  if (0x61 <=? c) && (c <=? 0x7A) then c - 0x20 else c.

Definition upper (s : str) : str := map upper_char s.

(** [str(n)] for an integer. *)
Definition str_of_Z (z : Z) : str := lit (NilZero.string_of_int (Z.to_int z)).

End Text.
Export Text.

(** ** Regular expressions of the shape used by [GUID_REGEX]

    A sequence of [cls{n}] items, each a character class repeated a fixed
    number of times (a literal character is a one-element class repeated
    once).  Matching such an expression needs no backtracking. *)

Module Re.

Local Open Scope N_scope.

Definition class := char -> bool.
Definition regex := list (class * nat).

(** [[0-9A-Fa-f]] *)
Definition hexdigit : class := fun c =>
  ((0x30 <=? c) && (c <=? 0x39)) || ((0x41 <=? c) && (c <=? 0x46))
  || ((0x61 <=? c) && (c <=? 0x66)).

Definition literal (a : char) : class := fun c => c =? a.

(** [take cls n s]: [cls{n}] at the start of [s]; the matched text and the rest. *)
Fixpoint take (cls : class) (n : nat) (s : str) : option (str * str) :=
  match n with
  | O => Some ([], s)
  | S n' =>
      match s with
      | c :: s' =>
          if cls c then
            match take cls n' s' with
            | Some (m, r) => Some (c :: m, r)
            | None => None
            end
          else None
      | [] => None
      end
  end.

(** [re.match]: the expression at the start of [s]. *)
Fixpoint match_here (re : regex) (s : str) : option (str * str) :=
  match re with
  | [] => Some ([], s)
  | (cls, n) :: re' =>
      match take cls n s with
      | Some (m1, r1) =>
          match match_here re' r1 with
          | Some (m2, r2) => Some (m1 ++ m2, r2)
          | None => None
          end
      | None => None
      end
  end.

(** [re.search(s).group(0)]: the match at the leftmost position that has one. *)
Fixpoint search (re : regex) (s : str) : option str :=
  match match_here re s with
  | Some (m, _) => Some m
  | None =>
      match s with
      | [] => None
      | _ :: s' => search re s'
      end
  end.

End Re.

(** ** Module-level constants of the script *)

Definition GUID_REGEX : Re.regex :=
  [ (Re.hexdigit, 8%nat); (Re.literal hyphen, 1%nat);
    (Re.hexdigit, 4%nat); (Re.literal hyphen, 1%nat);
    (Re.hexdigit, 4%nat); (Re.literal hyphen, 1%nat);
    (Re.hexdigit, 4%nat); (Re.literal hyphen, 1%nat);
    (Re.hexdigit, 12%nat) ].

Definition TARGET_PATH : str := lit "/private/var/containers/Shared/SystemGroup/".

Definition BLDB_FILENAME : str := lit "BLDatabaseManager.sqlite".

(** ** The filesystem *)

Module FS.

(** A directory tree.  [Special] stands for whatever is neither a regular
    file nor a directory.  Symbolic links are not modelled. *)
#[local] Unset Elimination Schemes.
Inductive node :=
| File (st_size : N)
| Dir (children : list (str * node))
| Special.
#[local] Set Elimination Schemes.

(** The components of an absolute path. *)
Definition Path := list str.

Definition name_eqb (a b : str) : bool :=
  if list_eq_dec N.eq_dec a b then true else false.

Fixpoint assoc (x : str) (cs : list (str * node)) : option node :=
  match cs with
  | [] => None
  | (name, c) :: cs' => if name_eqb name x then Some c else assoc x cs'
  end.

Fixpoint lookup (n : node) (p : Path) : option node :=
  match p with
  | [] => Some n
  | x :: p' =>
      match n with
      | Dir cs =>
          match assoc x cs with
          | Some c => lookup c p'
          | None => None
          end
      | _ => None
      end
  end.

Definition is_dir (o : option node) : bool :=
  match o with Some (Dir _) => true | _ => false end.

Definition exists_ (o : option node) : bool :=
  match o with Some _ => true | None => false end.

Definition is_file (n : node) : bool :=
  match n with File _ => true | _ => false end.

Definition st_size (n : node) : N :=
  match n with File sz => sz | _ => 0%N end.

(** [rglob('*')]: everything below a directory, at any depth, with its
    path relative to that directory. *)
Fixpoint rglob (n : node) : list (Path * node) :=
  match n with
  | Dir cs =>
      flat_map (fun e => ([fst e], snd e)
                           :: map (fun q => (fst e :: fst q, snd q)) (rglob (snd e)))
               cs
  | _ => []
  end.

(** [put x c cs]: the entry named [x] becomes [c]. *)
Fixpoint put (x : str) (c : node) (cs : list (str * node)) : list (str * node) :=
  match cs with
  | [] => [(x, c)]
  | (name, d) :: cs' =>
      if name_eqb name x then (name, c) :: cs' else (name, d) :: put x c cs'
  end.

(** A new empty directory at [p]; [None] when the parent is not a
    directory or the name is taken. *)
Fixpoint mkdir (n : node) (p : Path) : option node :=
  match p, n with
  | [x], Dir cs =>
      match assoc x cs with
      | None => Some (Dir (put x (Dir []) cs))
      | Some _ => None
      end
  | x :: p', Dir cs =>
      match assoc x cs with
      | Some c =>
          match mkdir c p' with
          | Some c' => Some (Dir (put x c' cs))
          | None => None
          end
      | None => None
      end
  | _, _ => None
  end.

(** [shutil.rmtree]: the entry at [p] is removed with all it contains. *)
Fixpoint remove (n : node) (p : Path) : node :=
  match p, n with
  | [x], Dir cs => Dir (filter (fun e => negb (name_eqb (fst e) x)) cs)
  | x :: p', Dir cs =>
      Dir (map (fun e => if name_eqb (fst e) x then (fst e, remove (snd e) p') else e) cs)
  | _, _ => n
  end.

(** [str(path)] and [path.name] *)
Definition str_of_path (p : Path) : str :=
  match p with
  | [] => lit "/"
  | _ :: _ => flat_map (fun x => lit "/" ++ x) p
  end.

Definition name (p : Path) : str := last p [].

End FS.
Export FS.

(** ** The world outside the script *)

(** What [subprocess.run] can do: the process ends with a return code and
    its two captured outputs; it is still running at the timeout
    ([subprocess.TimeoutExpired]); or it cannot be run at all (for example
    [FileNotFoundError] when the tool is not installed). *)
Inductive subprocess_result :=
| CompletedProcess (returncode : Z) (stdout stderr : str)
| Expired
| NotRun.

(** What one subprocess does: its result, the time it takes in
    milliseconds, and what becomes of the filesystem meanwhile. *)
Record Reaction := mkReaction {
  result : subprocess_result;
  elapsed : N;
  effect : node -> node
}.

(** The environment of a run: the reaction to the n-th subprocess the
    script starts, and the directory name [tempfile] picks. *)
Record Env := mkEnv {
  react : nat -> Reaction;
  tmpdir : Path
}.

Inductive Event :=
| Spawn (cmd : list str) (timeout : option Z)
| Sleep (secs : Z)
| Print (text : str)
| Mkdtemp (p : Path)
| Rmtree (p : Path).

(** [clock] is [time.time()] in milliseconds; [spawned] counts the
    subprocesses started so far; [trace] is what the script has done, in
    order. *)
Record World := mkWorld {
  clock : Z;
  fs : node;
  spawned : nat;
  trace : list Event
}.

Definition seconds (s : Z) : Z := 1000 * s.

(** ** Exceptions and the monad of the script *)

Inductive exn :=
| TimeoutExpired
| OSError
| SystemExit (code : Z).

Inductive outcome (A : Type) :=
| Ok (a : A)
| Raise (e : exn).
Arguments Ok {A} a.
Arguments Raise {A} e.

Definition M (A : Type) := World -> outcome A * World.

Definition ret {A} (a : A) : M A := fun w => (Ok a, w).

Definition bind {A B} (c : M A) (k : A -> M B) : M B := fun w =>
  match c w with
  | (Ok a, w') => k a w'
  | (Raise e, w') => (Raise e, w')
  end.

Definition raise {A} (e : exn) : M A := fun w => (Raise e, w).

(** [try: c  except e: h] *)
Definition try_except {A} (c : M A) (caught : exn -> bool) (h : M A) : M A := fun w =>
  match c w with
  | (Ok a, w') => (Ok a, w')
  | (Raise e, w') => if caught e then h w' else (Raise e, w')
  end.

(** [c] followed by [cleanup] however [c] ends. *)
Definition finally {A} (c : M A) (cleanup : M unit) : M A := fun w =>
  match c w with
  | (r, w') =>
      match cleanup w' with
      | (Ok _, w'') => (r, w'')
      | (Raise e, w'') => (Raise e, w'')
      end
  end.

Declare Scope script_scope.
Delimit Scope script_scope with script.
Notation "x <- c ;; k" := (bind c (fun x => k))
  (at level 61, c at next level, right associativity) : script_scope.
Notation "' pat <- c ;; k" := (bind c (fun x => match x with pat => k end))
  (at level 61, pat pattern, c at next level, right associativity) : script_scope.
Notation "c ;; k" := (bind c (fun _ => k))
  (at level 61, right associativity) : script_scope.
Open Scope script_scope.

Definition emit (e : Event) : M unit := fun w =>
  (Ok tt, mkWorld (clock w) (fs w) (spawned w) (trace w ++ [e])).

(** [print(text, end=end_)] and [print(text)] *)
Definition print_end (text end_ : str) : M unit := emit (Print (text ++ end_)).
Definition print (text : str) : M unit := print_end text (lit (String "010" "")).

(** [time.time()] *)
Definition time : M Z := fun w => (Ok (clock w), w).

(** [time.sleep(secs)] *)
Definition sleep (secs : Z) : M unit := fun w =>
  (Ok tt, mkWorld (clock w + seconds secs) (fs w) (spawned w) (trace w ++ [Sleep secs])).

Definition sys_exit {A} (code : Z) : M A := raise (SystemExit code).

Definition stat (p : Path) : M (option node) := fun w => (Ok (lookup (fs w) p), w).

(** ** The script *)

Definition nl : str := [0x0A%N].
Definition check_mark : str := [0x2713%N].
Definition arrow : str := [0x2192%N].

(** Truth value of a string: [if s:] *)
Definition nonempty (s : str) : bool :=
  match s with [] => false | _ :: _ => true end.

Section Script.

Variable env : Env.

(** [subprocess.run(cmd, capture_output=True, text=True, timeout=timeout,
    check=False)]: the [spawned w]-th reaction of the environment. *)
Definition subprocess_run (cmd : list str) (timeout : option Z) : M (Z * str * str) := fun w =>
  let r := react env (spawned w) in
  let w' := mkWorld (clock w + Z.of_N (elapsed r)) (effect r (fs w))
                    (S (spawned w)) (trace w ++ [Spawn cmd timeout]) in
  match result r with
  | CompletedProcess rc out err => (Ok (rc, out, err), w')
  | Expired => (Raise TimeoutExpired, w')
  | NotRun => (Raise OSError, w')
  end.

Definition run_command (cmd : list str) (timeout : option Z) : M (Z * str * str) :=
  try_except
    ('(returncode, stdout, stderr) <- subprocess_run cmd timeout ;;
     ret (returncode, strip stdout, strip stderr))
    (fun e => match e with TimeoutExpired => true | _ => false end)
    (ret (124%Z, [], lit "Timeout expired")).

Definition restart_device : M bool :=
  print (lit "[+] Sending device reboot command...") ;;
  '(code, out, err) <-
    run_command [lit "pymobiledevice3"; lit "diagnostics"; lit "restart"] (Some 30%Z) ;;
  if (code =? 0)%Z then
    print (lit "[" ++ check_mark ++ lit "] Reboot command sent successfully") ;;
    ret true
  else
    print (lit "[-] Error during reboot") ;;
    (if nonempty err then print (lit "    " ++ err) else ret tt) ;;
    ret false.

(** One turn of the [while] loop of [wait_for_device]: [Some b] when the
    turn ends in [return b], [None] when it reaches the end of the body. *)
Definition poll : M (option bool) :=
  '(code, _, _) <- run_command [lit "ideviceinfo"; lit "-k"; lit "UniqueDeviceID"] (Some 10%Z) ;;
  if (code =? 0)%Z then
    print (nl ++ lit "[" ++ check_mark ++ lit "] Device connected!") ;;
    sleep 10 ;;
    ret (Some true)
  else
    print_end (lit ".") [] ;;
    sleep 3 ;;
    ret None.

(** [while time.time() - start < timeout: ...] and what follows the loop. *)
Equations? wait_loop (start timeout : Z) (w : World) : outcome bool * World
  by wf (Z.to_nat (start + seconds timeout - clock w)) lt :=
wait_loop start timeout w with Z_lt_dec (clock w - start) (seconds timeout) := {
  | left _ with inspect (poll w) := {
      | exist _ (Ok None, w') _ := wait_loop start timeout w'
      | exist _ (Ok (Some b), w') _ := (Ok b, w')
      | exist _ (Raise e, w') _ := (Raise e, w') }
  | right _ :=
      (print (nl ++ lit "[-] Timeout: device did not reconnect") ;; ret false) w }.
Proof.
  (* a turn that reaches the end of the body has slept 3 seconds *)
  assert (Hclock : (clock w + 3000 <= clock w')%Z).
  { match goal with H : poll _ = _ |- _ => revert H end.
    unfold poll, run_command, try_except, subprocess_run, bind, ret.
    destruct (result (react env (spawned w))) as [rc out err| |]; cbn;
      try discriminate.
    - destruct (rc =? 0)%Z; cbn; intros H; inversion H; subst; cbn;
        unfold seconds; lia.
    - intros H; inversion H; subst; cbn; unfold seconds; lia. }
  lia.
Qed.

Definition wait_for_device (timeout : Z) : M bool :=
  print_end (lit "[+] Waiting for device to reconnect...") [] ;;
  start <- time ;;
  wait_loop start timeout.

Definition collect_syslog_archive (archive_path : Path) (timeout : Z) : M bool :=
  print (lit "[+] Collecting syslog archive " ++ arrow ++ lit " " ++ name archive_path
         ++ lit " (timeout " ++ str_of_Z timeout ++ lit "s)") ;;
  let cmd := [lit "pymobiledevice3"; lit "syslog"; lit "collect"; str_of_path archive_path] in
  '(code, stdout, stderr) <- run_command cmd (Some (timeout + 30)%Z) ;;
  st <- stat archive_path ;;
  if negb (exists_ st) || negb (is_dir st) then
    print (lit "[-] Archive not created") ;;
    ret false
  else
    let total_size :=
      fold_right N.add 0%N
        (map (fun f => st_size (snd f))
             (filter (fun f => is_file (snd f))
                     (match st with Some d => rglob d | None => [] end))) in
    let size_mb := (total_size / 1024 / 1024)%N in
    if (total_size <? 10000000)%N then
      print (lit "[-] Archive too small (" ++ str_of_Z (Z.of_N size_mb) ++ lit " MB)") ;;
      ret false
    else
      print (lit "[" ++ check_mark ++ lit "] Archive collected: ~"
             ++ str_of_Z (Z.of_N size_mb) ++ lit " MB") ;;
      ret true.

(** The [for line in stdout.splitlines():] loop of
    [extract_guid_from_archive], and what follows it. *)
Fixpoint scan_lines (lines : list str) : M (option str) :=
  match lines with
  | line :: rest =>
      if contains BLDB_FILENAME line then
        print (lit "[+] Found relevant line:") ;;
        print (lit "    " ++ strip line) ;;
        match Re.search GUID_REGEX line with
        | Some m =>
            let guid := upper m in
            print (lit "[" ++ check_mark ++ lit "] GUID extracted: " ++ guid) ;;
            ret (Some guid)
        | None => scan_lines rest
        end
      else scan_lines rest
  | [] =>
      print (lit "[-] GUID not found in archive") ;;
      ret None
  end.

Definition extract_guid_from_archive (archive_path : Path) : M (option str) :=
  print (lit "[+] Searching for GUID in archive using log show...") ;;
  let cmd :=
    [ lit "/usr/bin/log"; lit "show";
      lit "--archive"; str_of_path archive_path;
      lit "--info"; lit "--debug";
      lit "--style"; lit "syslog";
      lit "--predicate";
      lit "process == " ++ [0x22%N] ++ lit "bookassetd" ++ [0x22%N]
        ++ lit " AND eventMessage CONTAINS " ++ [0x22%N] ++ BLDB_FILENAME ++ [0x22%N] ] in
  '(code, stdout, stderr) <- run_command cmd (Some 60%Z) ;;
  if negb (code =? 0)%Z then
    print (lit "[-] log show exited with error " ++ str_of_Z code) ;;
    ret None
  else
    scan_lines (splitlines stdout).

(** [tempfile.mkdtemp], with the name the environment picks. *)
Definition mkdtemp : M Path := fun w =>
  match mkdir (fs w) (tmpdir env) with
  | Some fs' =>
      (Ok (tmpdir env),
       mkWorld (clock w) fs' (spawned w) (trace w ++ [Mkdtemp (tmpdir env)]))
  | None => (Raise OSError, w)
  end.

(** [shutil.rmtree], as the cleanup of a temporary directory runs it. *)
Definition rmtree (p : Path) : M unit := fun w =>
  (Ok tt, mkWorld (clock w) (remove (fs w) p) (spawned w) (trace w ++ [Rmtree p])).

(** [with tempfile.TemporaryDirectory() as d: body] *)
Definition TemporaryDirectory {A} (body : Path -> M A) : M A :=
  d <- mkdtemp ;;
  finally (body d) (rmtree d).

Definition main : M unit :=
  print (nl ++ lit "=== GUID Extraction (with reboot, as in original script) ===" ++ nl) ;;
  rebooted <- restart_device ;;
  (if negb rebooted then sys_exit 1 else ret tt) ;;
  connected <- wait_for_device 180 ;;
  (if negb connected then sys_exit 1 else ret tt) ;;
  TemporaryDirectory (fun tmpdir_str =>
    let tmp_path := tmpdir_str in
    let archive_path := tmp_path ++ [lit "ios_logs.logarchive"] in
    collected <- collect_syslog_archive archive_path 200 ;;
    (if negb collected then
       print (lit "[-] Failed to collect archive") ;;
       sys_exit 1
     else ret tt) ;;
    guid <- extract_guid_from_archive archive_path ;;
    match guid with
    | Some g =>
        if nonempty g then
          print (nl ++ lit "[" ++ check_mark ++ lit "] SUCCESS! GUID = " ++ g) ;;
          sys_exit 0
        else ret tt
    | None => ret tt
    end) ;;
  print (nl ++ lit "[-] GUID not found") ;;
  sys_exit 1.

(** The exit status of the process that runs [main()]: the code of
    [sys.exit], or 1 after the traceback of any other exception. *)
Definition exit_status (r : outcome unit) : Z :=
  match r with
  | Ok _ => 0
  | Raise (SystemExit code) => code
  | Raise _ => 1
  end.

End Script.

(** * Vocabulary of the statements *)

(** ** The identifier grammar, stated independently of the matcher *)

Definition hex_digits : str := lit "0123456789ABCDEFabcdef".

Definition hex_group (n : nat) (g : str) : Prop :=
  length g = n /\ Forall (fun c => In c hex_digits) g.

(** 8-4-4-4-12 hexadecimal digits, the groups separated by hyphens. *)
Definition is_guid (g : str) : Prop :=
  exists a b c d e,
    g = a ++ [hyphen] ++ b ++ [hyphen] ++ c ++ [hyphen] ++ d ++ [hyphen] ++ e
    /\ hex_group 8 a /\ hex_group 4 b /\ hex_group 4 c /\ hex_group 4 d
    /\ hex_group 12 e.

(** [g] is the leftmost substring of [s] that is an identifier. *)
Definition leftmost_guid (s pre g post : str) : Prop :=
  s = pre ++ g ++ post /\ is_guid g
  /\ forall pre' g' post',
       s = pre' ++ g' ++ post' -> is_guid g' -> length pre <= length pre'.

(** What a sequence of [cls{n}] items matches. *)
Inductive matches : Re.regex -> str -> Prop :=
| matches_nil : matches [] []
| matches_cons cls n re m1 m2 :
    length m1 = n -> Forall (fun c => cls c = true) m1 -> matches re m2 ->
    matches ((cls, n) :: re) (m1 ++ m2).

(** ** The commands and the messages of the script *)

Definition reboot_cmd : list str :=
  [lit "pymobiledevice3"; lit "diagnostics"; lit "restart"].

Definition presence_cmd : list str :=
  [lit "ideviceinfo"; lit "-k"; lit "UniqueDeviceID"].

Definition collect_cmd (archive_path : Path) : list str :=
  [lit "pymobiledevice3"; lit "syslog"; lit "collect"; str_of_path archive_path].

Definition log_show_cmd (archive_path : Path) : list str :=
  [ lit "/usr/bin/log"; lit "show";
    lit "--archive"; str_of_path archive_path;
    lit "--info"; lit "--debug";
    lit "--style"; lit "syslog";
    lit "--predicate";
    lit "process == " ++ [0x22%N] ++ lit "bookassetd" ++ [0x22%N]
      ++ lit " AND eventMessage CONTAINS " ++ [0x22%N] ++ BLDB_FILENAME ++ [0x22%N] ].

(** The archive path inside the temporary directory [d]. *)
Definition archive_of (d : Path) : Path := d ++ [lit "ios_logs.logarchive"].

Definition banner : str :=
  nl ++ lit "=== GUID Extraction (with reboot, as in original script) ===" ++ nl.

Definition waiting_msg : str := lit "[+] Waiting for device to reconnect...".

Definition connected_msg : str :=
  nl ++ lit "[" ++ check_mark ++ lit "] Device connected!".

Definition timed_out_msg : str :=
  nl ++ lit "[-] Timeout: device did not reconnect".

Definition failed_msg : str := lit "[-] Failed to collect archive".

Definition success_msg (g : str) : str :=
  nl ++ lit "[" ++ check_mark ++ lit "] SUCCESS! GUID = " ++ g.

Definition not_found_msg : str := nl ++ lit "[-] GUID not found".

(** ** Worlds along a run *)

(** The world once the next subprocess has been run. *)
Definition after_spawn (env : Env) (cmd : list str) (timeout : option Z) (w : World) : World :=
  let r := react env (spawned w) in
  mkWorld (clock w + Z.of_N (elapsed r)) (effect r (fs w))
          (S (spawned w)) (trace w ++ [Spawn cmd timeout]).

(** The world, [dt] milliseconds and the events [evs] later. *)
Definition advance (w : World) (dt : Z) (evs : list Event) : World :=
  mkWorld (clock w + dt) (fs w) (spawned w) (trace w ++ evs).

(** The world after [print(text)]. *)
Definition printed (text : str) (w : World) : World := snd (print text w).

(** The world after [shutil.rmtree(d)]. *)
Definition removed (d : Path) (w : World) : World := snd (rmtree d w).

(** The world after the line loop has shown a marker line. *)
Definition shown (line : str) (w : World) : World :=
  printed (lit "    " ++ strip line) (printed (lit "[+] Found relevant line:") w).

(** The world after one presence check that failed, and after one that
    succeeded. *)
Definition retried (env : Env) (w : World) : World :=
  advance (after_spawn env presence_cmd (Some 10%Z) w) (seconds 3)
          [Print (lit "."); Sleep 3].

Definition settled (env : Env) (w : World) : World :=
  advance (after_spawn env presence_cmd (Some 10%Z) w) (seconds 10)
          [Print (connected_msg ++ nl); Sleep 10].

(** The world after [n] presence checks that failed. *)
Fixpoint retries (env : Env) (w : World) (n : nat) : World :=
  match n with
  | O => w
  | S n' => retries env (retried env w) n'
  end.

(** ** What the extractor answers *)

(** The line holds the marker, and the line holds an identifier. *)
Definition has_marker (line : str) : Prop :=
  exists a b, line = a ++ BLDB_FILENAME ++ b.

Definition has_guid (line : str) : Prop :=
  exists pre g post, line = pre ++ g ++ post /\ is_guid g.

(** What the line loop answers, without its printing. *)
Fixpoint scan_result (lines : list str) : option str :=
  match lines with
  | line :: rest =>
      if contains BLDB_FILENAME line then
        match Re.search GUID_REGEX line with
        | Some m => Some (upper m)
        | None => scan_result rest
        end
      else scan_result rest
  | [] => None
  end.

(** What the extractor answers for the lines of the query's output: an
    identifier [u] exactly when some line holds both the marker and an
    identifier, [u] being the upper-cased leftmost identifier of the first
    such line; nothing exactly when no line holds both. *)
Definition extract_answers (lines : list str) (r : option str) : Prop :=
  (forall u,
      r = Some u <->
      exists before line after pre g post,
        lines = before ++ line :: after
        /\ Forall (fun l => ~ (has_marker l /\ has_guid l)) before
        /\ has_marker line /\ leftmost_guid line pre g post /\ u = upper g)
  /\ (r = None <-> Forall (fun l => ~ (has_marker l /\ has_guid l)) lines).

(** The reading of the lines that considers the first marker line only:
    the first line holding the marker decides, whether or not it holds an
    identifier. *)
Definition first_marker_line_only (lines : list str) : option str :=
  match find (contains BLDB_FILENAME) lines with
  | Some line => option_map upper (Re.search GUID_REGEX line)
  | None => None
  end.

(** ** The size of an archive *)

(** Induction on directory trees. *)
Fixpoint node_ind (P : node -> Prop)
    (HFile : forall sz, P (File sz))
    (HDir : forall cs, Forall (fun e => P (snd e)) cs -> P (Dir cs))
    (HSpecial : P Special) (n : node) {struct n} : P n :=
  match n with
  | File sz => HFile sz
  | Dir cs =>
      HDir cs
        ((fix all (l : list (str * node)) : Forall (fun e => P (snd e)) l :=
            match l with
            | [] => Forall_nil _
            | e :: l' =>
                @Forall_cons _ _ e l'
                  (node_ind P HFile HDir HSpecial (snd e)) (all l')
            end) cs)
  | Special => HSpecial
  end.

(** The sum of the sizes of the regular files of a tree, by recursion on
    the tree. *)
Fixpoint tree_size (n : node) : N :=
  match n with
  | File sz => sz
  | Dir cs => fold_right (fun e acc => (tree_size (snd e) + acc)%N) 0%N cs
  | Special => 0%N
  end.

(** [sum(f.stat().st_size for f in ... if f.is_file())] over a listing. *)
Definition files_size (l : list (Path * node)) : N :=
  fold_right N.add 0%N
    (map (fun f => st_size (snd f)) (filter (fun f => is_file (snd f)) l)).

(** ** The presence checks of the waiter *)

(** A presence check fails when its command ends with a non-zero status
    or is still running at its timeout; it succeeds with status 0. *)
Definition check_failed (r : subprocess_result) : bool :=
  match r with
  | CompletedProcess rc _ _ => negb (rc =? 0)%Z
  | Expired => true
  | NotRun => false
  end.

Definition check_ok (r : subprocess_result) : bool :=
  match r with
  | CompletedProcess rc _ _ => (rc =? 0)%Z
  | _ => false
  end.

(** The outcome of the [k]-th presence check from the world [w] on. *)
Definition check (env : Env) (w : World) (k : nat) : subprocess_result :=
  result (react env (spawned w + k)).

(** When the [k]-th presence check starts, the checks before it having
    failed: each took its time and was followed by a sleep of 3 seconds. *)
Definition check_start (env : Env) (w : World) (k : nat) : Z :=
  (clock w
   + fold_right Z.add 0
       (map (fun j => Z.of_N (elapsed (react env (spawned w + j))) + seconds 3)
            (seq 0 k)))%Z.

(** The [k]-th presence check starts before the deadline. *)
Definition in_time (env : Env) (w : World) (timeout : Z) (k : nat) : Prop :=
  (check_start env w k - clock w < seconds timeout)%Z.

(** ** Two runs side by side *)

(** What a run has done apart from printing. *)
Definition is_print (e : Event) : bool :=
  match e with Print _ => true | _ => false end.

Definition deeds (w : World) : list Event :=
  filter (fun e => negb (is_print e)) (trace w).

(** Two worlds that differ at most in what has been printed. *)
Definition same_world (w1 w2 : World) : Prop :=
  clock w1 = clock w2 /\ fs w1 = fs w2 /\ spawned w1 = spawned w2
  /\ deeds w1 = deeds w2.

(** Two runs of a computation end alike: in worlds that differ at most in
    what has been printed, with results related by [R] or with the same
    exception. *)
Definition agree {A B} (R : A -> B -> Prop) (c1 : M A) (c2 : M B) : Prop :=
  forall w1 w2, same_world w1 w2 ->
    same_world (snd (c1 w1)) (snd (c2 w2))
    /\ match fst (c1 w1), fst (c2 w2) with
       | Ok a, Ok b => R a b
       | Raise e1, Raise e2 => e1 = e2
       | _, _ => False
       end.

(** Two subprocess results that the script cannot tell apart by value: both
    end with status 0 and the same standard output once stripped, or both
    are failures (a non-zero status or a timeout), or neither can be run. *)
Definition same_verdict (r1 r2 : subprocess_result) : Prop :=
  match r1, r2 with
  | CompletedProcess c1 o1 _, CompletedProcess c2 o2 _ =>
      (c1 = 0%Z /\ c2 = 0%Z /\ strip o1 = strip o2) \/ (c1 <> 0%Z /\ c2 <> 0%Z)
  | CompletedProcess c _ _, Expired | Expired, CompletedProcess c _ _ => c <> 0%Z
  | Expired, Expired => True
  | NotRun, NotRun => True
  | _, _ => False
  end.

Definition alike (env1 env2 : Env) : Prop :=
  tmpdir env1 = tmpdir env2
  /\ forall n,
       same_verdict (result (react env1 n)) (result (react env2 n))
       /\ elapsed (react env1 n) = elapsed (react env2 n)
       /\ forall t, effect (react env1 n) t = effect (react env2 n) t.

(** What [run_command] returns in two such runs. *)
Definition same_answer (a b : Z * str * str) : Prop :=
  let '(c1, o1, _) := a in
  let '(c2, o2, _) := b in
  (c1 =? 0)%Z = (c2 =? 0)%Z /\ ((c1 =? 0)%Z = true -> o1 = o2).

(** Two environments whose commands differ only in the text they write to
    standard error. *)
Definition differ_only_in_stderr (env1 env2 : Env) : Prop :=
  tmpdir env1 = tmpdir env2
  /\ forall n,
       elapsed (react env1 n) = elapsed (react env2 n)
       /\ effect (react env1 n) = effect (react env2 n)
       /\ match result (react env1 n), result (react env2 n) with
          | CompletedProcess c1 o1 _, CompletedProcess c2 o2 _ => c1 = c2 /\ o1 = o2
          | Expired, Expired => True
          | NotRun, NotRun => True
          | _, _ => False
          end.

(** [env2] is [env1] where some commands, instead of still running at the
    timeout, end with a non-zero status. *)
Definition timeouts_as_failures (env1 env2 : Env) : Prop :=
  tmpdir env1 = tmpdir env2
  /\ forall n,
       elapsed (react env1 n) = elapsed (react env2 n)
       /\ effect (react env1 n) = effect (react env2 n)
       /\ (result (react env1 n) = result (react env2 n)
           \/ (result (react env1 n) = Expired
               /\ exists c o e,
                    c <> 0%Z /\ result (react env2 n) = CompletedProcess c o e)).

(** ** The steps of a run *)

(** The steps of a run: the commands it starts, and the temporary
    directories it makes and removes. *)
Definition is_step (e : Event) : bool :=
  match e with
  | Spawn _ _ | Mkdtemp _ | Rmtree _ => true
  | Sleep _ | Print _ => false
  end.

Definition steps (tr : list Event) : list Event := filter is_step tr.

(** What a stage adds to the trace: the events [tr], of which the steps
    are [sts]; and the stage raises nothing but [OSError]. *)
Definition stage_runs {A} (c : M A) (w : World) (sts : list Event) : Prop :=
  (exists tr, trace (snd (c w)) = trace w ++ tr /\ steps tr = sts)
  /\ forall e, fst (c w) = Raise e -> e = OSError.

(** The waiter, called by [main] in the world [w1], makes [k] presence
    checks, at least one. *)
Definition checks_made (env : Env) (w1 : World) (k : nat) : Prop :=
  spawned (snd (wait_for_device env 180 w1)) = spawned w1 + k /\ 1 <= k.

(** [ending env w k tail]: the run of [main] from [w] made [k] presence
    checks and then the steps [tail]; the constructors tell which stage was
    the last, with the worlds between the stages, the exit status, and what
    is left of the temporary directory [d] and of all under it. *)
Inductive ending (env : Env) (w : World) : nat -> list Event -> Prop :=
| ends_at_reboot :
    fst (restart_device env (printed banner w)) <> Ok true ->
    exit_status (fst (main env w)) = 1%Z ->
    ending env w 0 []
| ends_at_wait w1 k :
    restart_device env (printed banner w) = (Ok true, w1) ->
    checks_made env w1 k ->
    fst (wait_for_device env 180 w1) <> Ok true ->
    exit_status (fst (main env w)) = 1%Z ->
    ending env w k []
| ends_at_mkdtemp w1 w2 k :
    restart_device env (printed banner w) = (Ok true, w1) ->
    checks_made env w1 k ->
    wait_for_device env 180 w1 = (Ok true, w2) ->
    mkdtemp env w2 = (Raise OSError, w2) ->
    exit_status (fst (main env w)) = 1%Z ->
    ending env w k []
| ends_at_collect w1 w2 d w3 k :
    restart_device env (printed banner w) = (Ok true, w1) ->
    checks_made env w1 k ->
    wait_for_device env 180 w1 = (Ok true, w2) ->
    mkdtemp env w2 = (Ok d, w3) ->
    lookup (fs w3) d = Some (Dir []) ->
    fst (collect_syslog_archive env (archive_of d) 200 w3) <> Ok true ->
    exit_status (fst (main env w)) = 1%Z ->
    (forall q, lookup (fs (snd (main env w))) (d ++ q) = None) ->
    ending env w k
      [Mkdtemp d; Spawn (collect_cmd (archive_of d)) (Some 230%Z); Rmtree d]
| ends_at_extract w1 w2 d w3 w4 k :
    restart_device env (printed banner w) = (Ok true, w1) ->
    checks_made env w1 k ->
    wait_for_device env 180 w1 = (Ok true, w2) ->
    mkdtemp env w2 = (Ok d, w3) ->
    lookup (fs w3) d = Some (Dir []) ->
    collect_syslog_archive env (archive_of d) 200 w3 = (Ok true, w4) ->
    (forall g, fst (extract_guid_from_archive env (archive_of d) w4) = Ok (Some g) ->
               exit_status (fst (main env w)) = 0%Z) ->
    ((forall g, fst (extract_guid_from_archive env (archive_of d) w4) <> Ok (Some g)) ->
     exit_status (fst (main env w)) = 1%Z) ->
    (forall q, lookup (fs (snd (main env w))) (d ++ q) = None) ->
    ending env w k
      [Mkdtemp d; Spawn (collect_cmd (archive_of d)) (Some 230%Z);
       Spawn (log_show_cmd (archive_of d)) (Some 60%Z); Rmtree d].

(** ** Example inputs *)

Definition ex_empty_world : World := mkWorld 0 (Dir []) 0 [].

Definition ex_guid_line : str :=
  lit "bookassetd: BLDatabaseManager.sqlite 1234abcd-5678-90ef-abcd-1234567890ab opened".

(** A first marker line without an identifier, then one with it. *)
Definition ex_two_marker_lines : str :=
  lit "bookassetd: closing BLDatabaseManager.sqlite" ++ nl ++ ex_guid_line.

Definition ex_answers (r : subprocess_result) : Env :=
  mkEnv (fun _ => mkReaction r 0 (fun t => t)) [lit "tmp"; lit "tmpa1b2c3"].

Definition ex_world : World := mkWorld 1700000000000 (Dir [(lit "tmp", Dir [])]) 0 [].





(** An archive of [size] bytes in one file. *)
Definition ex_collects (size : N) (t : node) : node :=
  Dir [(lit "tmp",
        Dir [(lit "tmpa1b2c3",
              Dir [(lit "ios_logs.logarchive",
                    Dir [(lit "logdata.LiveData.tracev3", File size)])])])].

(** The device answers the third presence check: the first ends with
    status 1 after 2 s, the second is still running at its timeout of 10 s,
    the third ends with status 0. *)
Definition ex_reconnect_env : Env :=
  mkEnv (fun n =>
           match n with
           | 0 => mkReaction (CompletedProcess 1 [] (lit "No device found")) 2000 (fun t => t)
           | 1 => mkReaction Expired 10000 (fun t => t)
           | _ => mkReaction (CompletedProcess 0 (lit "00008030-001A2B3C4D5E6F70") []) 500 (fun t => t)
           end)
        [lit "tmp"; lit "tmpa1b2c3"].

(** The reboot command fails, with one message on standard error or
    another. *)
Definition ex_stderr_env (message : str) : Env :=
  mkEnv (fun _ => mkReaction (CompletedProcess 1 [] message) 1500 (fun t => t))
        [lit "tmp"; lit "tmpa1b2c3"].

(** The reboot command is still running after its 30 seconds, or ends with
    status 2 instead. *)
Definition ex_timeout_env (r : subprocess_result) : Env :=
  mkEnv (fun _ => mkReaction r 30000 (fun t => t)) [lit "tmp"; lit "tmpa1b2c3"].

(** The reboot is acknowledged, the device answers the second presence
    check, the collection leaves an archive of [size] bytes, and the log
    query prints [out]. *)
Definition ex_pipeline_env (size : N) (out : str) : Env :=
  mkEnv (fun n =>
           match n with
           | 0 => mkReaction (CompletedProcess 0 [] []) 800 (fun t => t)
           | 1 => mkReaction (CompletedProcess 1 [] (lit "No device found")) 1200 (fun t => t)
           | 2 => mkReaction (CompletedProcess 0 (lit "00008030-001A2B3C4D5E6F70") []) 300 (fun t => t)
           | 3 => mkReaction (CompletedProcess 0 [] []) 95000 (ex_collects size)
           | _ => mkReaction (CompletedProcess 0 out []) 4000 (fun t => t)
           end)
        [lit "tmp"; lit "tmpa1b2c3"].

(** ** Trimmed text and occurrences *)

(** [s] neither starts nor ends with a whitespace character. *)
Definition trimmed (s : str) : Prop :=
  (forall c t, s = c :: t -> isspace c = false)
  /\ (forall t c, s = t ++ [c] -> isspace c = false).

(** [s] is [raw] without some whitespace at its two ends. *)
Definition trimming_of (raw s : str) : Prop :=
  exists p q,
    raw = p ++ s ++ q
    /\ Forall (fun c => isspace c = true) p
    /\ Forall (fun c => isspace c = true) q.

(** [g] occurs in [s]. *)
Definition occurs_in (g s : str) : Prop := exists a b, s = a ++ g ++ b.

(** The status that [run_command] reports for a result. *)
Definition reported_code (r : subprocess_result) : Z :=
  match r with
  | CompletedProcess rc _ _ => rc
  | _ => 124
  end.

(** ** Further example inputs *)

(** The device answers the [k]-th presence check (counted from 0) with
    status 0; every earlier check ends with status 1 after 2 seconds. *)
Definition ex_answers_at (k : nat) : Env :=
  mkEnv (fun n =>
           if Nat.ltb n k
           then mkReaction (CompletedProcess 1 [] (lit "No device found")) 2000 (fun t => t)
           else mkReaction (CompletedProcess 0 (lit "00008030-001A2B3C4D5E6F70") []) 500
                           (fun t => t))
        [lit "tmp"; lit "tmpa1b2c3"].

(** Two query outputs with the same marker line among other lines. *)
Definition ex_noisy_output : str :=
  lit "bookassetd: starting 0F0F0F0F-1111-2222-3333-444444444444" ++ nl
  ++ ex_guid_line ++ nl ++ lit "bookassetd: done".

(** The log query ends with status 64 although it printed a marker line. *)
Definition ex_query_fails_env : Env :=
  mkEnv (fun _ => mkReaction (CompletedProcess 64 ex_guid_line (lit "log: bad predicate"))
                             700 (fun t => t))
        [lit "tmp"; lit "tmpa1b2c3"].

(** * Properties *)

(** ** Regular expressions and the identifier grammar *)

Section TextLemmas.

Lemma take_sound cls n : forall s m r,
  Re.take cls n s = Some (m, r) ->
  s = m ++ r /\ length m = n /\ Forall (fun c => cls c = true) m.
Proof.
  induction n as [|n IH]; intros s m r; cbn.
  - intros [= <- <-]. auto.
  - destruct s as [|c s]; [discriminate|].
    destruct (cls c) eqn:Hc; [|discriminate].
    destruct (Re.take cls n s) as [[m' r']|] eqn:Ht; [|discriminate].
    intros [= <- <-]. apply IH in Ht as (-> & <- & Hall).
    repeat split; auto.
Qed.

Lemma take_complete cls : forall m r,
  Forall (fun c => cls c = true) m ->
  Re.take cls (length m) (m ++ r) = Some (m, r).
Proof.
  induction m as [|c m IH]; intros r Hall; cbn; [reflexivity|].
  inversion Hall as [|? ? Hc Hm]; subst.
  rewrite Hc, IH by assumption. reflexivity.
Qed.

Lemma match_here_sound re : forall s m r,
  Re.match_here re s = Some (m, r) -> s = m ++ r /\ matches re m.
Proof.
  induction re as [|[cls n] re IH]; intros s m r; cbn.
  - intros [= <- <-]. split; [reflexivity | constructor].
  - destruct (Re.take cls n s) as [[m1 r1]|] eqn:Ht; [|discriminate].
    destruct (Re.match_here re r1) as [[m2 r2]|] eqn:Hm; [|discriminate].
    intros [= <- <-].
    apply take_sound in Ht as (-> & Hlen & Hall).
    apply IH in Hm as (-> & Hm2).
    split; [now rewrite app_assoc | now constructor].
Qed.

Lemma match_here_complete re m : matches re m ->
  forall r, Re.match_here re (m ++ r) = Some (m, r).
Proof.
  induction 1 as [|cls n re m1 m2 Hlen Hall Hm IH]; intros r; cbn; [reflexivity|].
  rewrite <- app_assoc, <- Hlen, take_complete by assumption.
  now rewrite IH.
Qed.

(** The text of a match is determined by where it starts. *)
Lemma matches_length re m : matches re m ->
  length m = fold_right (fun i k => snd i + k) 0 re.
Proof.
  induction 1 as [|cls n re m1 m2 Hlen Hall Hm IH]; cbn; [reflexivity|].
  rewrite length_app. lia.
Qed.

Lemma search_sound re : forall s m,
  Re.search re s = Some m ->
  exists pre post,
    s = pre ++ m ++ post /\ matches re m
    /\ forall pre' m' post',
         s = pre' ++ m' ++ post' -> matches re m' -> length pre <= length pre'.
Proof.
  induction s as [|c s IH]; intros m; cbn.
  - destruct (Re.match_here re []) as [[m0 r0]|] eqn:Hm; [|discriminate].
    intros [= <-]. apply match_here_sound in Hm as (Hs & Hm).
    exists [], r0. cbn. repeat split; auto. intros; lia.
  - destruct (Re.match_here re (c :: s)) as [[m0 r0]|] eqn:Hm.
    + intros [= <-]. apply match_here_sound in Hm as (Hs & Hm).
      exists [], r0. cbn. repeat split; auto. intros; lia.
    + intros Hs. apply IH in Hs as (pre & post & -> & Hmm & Hleft).
      exists (c :: pre), post. repeat split; auto.
      intros [|c' pre'] m' post' Heq Hm'.
      * cbn in Heq. rewrite Heq, (match_here_complete Hm') in Hm. discriminate.
      * cbn in Heq. injection Heq as <- Heq. cbn.
        apply le_n_S. eapply Hleft; eauto.
Qed.

Lemma search_complete re : forall pre m post,
  matches re m ->
  (forall pre' m' post',
     pre ++ m ++ post = pre' ++ m' ++ post' -> matches re m' ->
     length pre <= length pre') ->
  Re.search re (pre ++ m ++ post) = Some m.
Proof.
  induction pre as [|c pre IH]; intros m post Hm Hleft.
  - cbn [app]. destruct (m ++ post) eqn:E; cbn;
      rewrite <- E, (match_here_complete Hm); reflexivity.
  - cbn [app Re.search].
    destruct (Re.match_here re (c :: pre ++ m ++ post)) as [[m0 r0]|] eqn:Hm0.
    + apply match_here_sound in Hm0 as (Heq & Hm0).
      specialize (Hleft [] m0 r0 Heq Hm0). cbn in Hleft. lia.
    + apply IH; auto. intros pre' m' post' Heq Hm'.
      specialize (Hleft (c :: pre') m' post'). cbn in Hleft.
      rewrite Heq in Hleft. specialize (Hleft eq_refl Hm'). lia.
Qed.

Lemma search_none re : forall s,
  Re.search re s = None ->
  forall pre m post, s = pre ++ m ++ post -> ~ matches re m.
Proof.
  induction s as [|c s IH]; cbn.
  - destruct (Re.match_here re []) as [[m0 r0]|] eqn:Hm; [discriminate|].
    intros _ pre m post Heq Hmm.
    symmetry in Heq. apply app_eq_nil in Heq as (-> & Heq). cbn in Heq.
    rewrite <- Heq, (match_here_complete Hmm) in Hm. discriminate.
  - destruct (Re.match_here re (c :: s)) as [[m0 r0]|] eqn:Hm; [discriminate|].
    intros Hs [|c' pre] m post Heq Hmm.
    + cbn in Heq. rewrite Heq, (match_here_complete Hmm) in Hm. discriminate.
    + cbn in Heq. injection Heq as <- Heq. eapply IH; eauto.
Qed.

End TextLemmas.

Section GuidGrammar.

Lemma below_cases (P : N -> bool) (k : nat) :
  forallb (fun n => P (N.of_nat n)) (seq 0 k) = true ->
  forall c, (c < N.of_nat k)%N -> P c = true.
Proof.
  intros Hall c Hc. rewrite forallb_forall in Hall.
  rewrite <- (N2Nat.id c). apply Hall, in_seq. lia.
Qed.

Lemma hexdigit_spec c : Re.hexdigit c = true <-> In c hex_digits.
Proof.
  split.
  - intros Hc.
    assert (Hlt : (c < N.of_nat 103)%N).
    { unfold Re.hexdigit in Hc.
      rewrite !orb_true_iff, !andb_true_iff, !N.leb_le in Hc. lia. }
    pose proof (@below_cases
      (fun c => implb (Re.hexdigit c) (existsb (N.eqb c) hex_digits))
      103 eq_refl c Hlt) as H.
    cbv beta in H. rewrite Hc in H. cbn [implb] in H.
    apply existsb_exists in H as (x & Hin & Hx).
    apply N.eqb_eq in Hx. now subst.
  - intros H. cbn in H.
    repeat (destruct H as [<-|H]; [reflexivity|]). contradiction.
Qed.

Lemma literal_group a m :
  length m = 1 -> Forall (fun c => Re.literal a c = true) m -> m = [a].
Proof.
  destruct m as [|c [|? ?]]; try discriminate. intros _ H.
  inversion H as [|? ? Hc _]; subst. apply N.eqb_eq in Hc. now subst.
Qed.

Lemma hexdigit_group n m :
  length m = n /\ Forall (fun c => Re.hexdigit c = true) m <-> hex_group n m.
Proof.
  unfold hex_group. rewrite !Forall_forall.
  split; intros [Hlen Hall]; split; auto; intros c Hc; apply hexdigit_spec; auto.
Qed.

Lemma matches_GUID_REGEX m : matches GUID_REGEX m <-> is_guid m.
Proof.
  unfold GUID_REGEX, is_guid. split.
  - intros H.
    repeat match goal with
           | H : matches (_ :: _) _ |- _ => inversion H; subst; clear H
           | H : matches [] _ |- _ => inversion H; subst; clear H
           end.
    repeat match goal with
           | H : length ?m = 1, H' : Forall (fun c => Re.literal _ c = true) ?m |- _ =>
               pose proof (literal_group _ H H'); subst m
           end.
    rewrite app_nil_r.
    do 5 eexists. split; [reflexivity|].
    repeat (split; [apply hexdigit_group; split; assumption|]).
    apply hexdigit_group; split; assumption.
  - intros (a & b & c & d & e & -> & Ha & Hb & Hc & Hd & He).
    apply hexdigit_group in Ha as [? ?], Hb as [? ?], Hc as [? ?],
        Hd as [? ?], He as [? ?].
    rewrite <- (app_nil_r e).
    repeat (constructor; auto).
Qed.

Lemma upper_app a b : upper (a ++ b) = upper a ++ upper b.
Proof. apply map_app. Qed.

Lemma upper_hex_char c :
  In c hex_digits -> In (upper_char c) (lit "0123456789ABCDEF").
Proof.
  intros H. cbn in H.
  repeat (destruct H as [<-|H]; [vm_compute; tauto|]). contradiction.
Qed.

Lemma upper_hex_group n a :
  hex_group n a ->
  hex_group n (upper a) /\ Forall (fun c => In c (lit "0123456789ABCDEF")) (upper a).
Proof.
  intros [Hlen Hall]. unfold hex_group, upper. rewrite length_map.
  assert (H : Forall (fun c => In c (lit "0123456789ABCDEF")) (map upper_char a)).
  { apply Forall_map. eapply Forall_impl; [|exact Hall].
    intros c Hc. now apply upper_hex_char. }
  repeat split; auto.
  eapply Forall_impl; [|exact H].
  intros c Hc. cbn in Hc. cbn.
  repeat (destruct Hc as [<-|Hc]; [tauto|]). contradiction.
Qed.

(** Upper-casing an identifier gives an identifier written with digits,
    capital letters and hyphens only. *)
Lemma upper_guid g :
  is_guid g ->
  is_guid (upper g) /\ Forall (fun c => In c (lit "0123456789ABCDEF-")) (upper g).
Proof.
  intros (a & b & c & d & e & -> & Ha & Hb & Hc & Hd & He).
  apply upper_hex_group in Ha as [Ha Ha'], Hb as [Hb Hb'], Hc as [Hc Hc'],
      Hd as [Hd Hd'], He as [He He'].
  rewrite !upper_app. change (upper [hyphen]) with [hyphen]. split.
  - exists (upper a), (upper b), (upper c), (upper d), (upper e). auto 10.
  - assert (Hw : forall x, In x (lit "0123456789ABCDEF") ->
                           In x (lit "0123456789ABCDEF-")).
    { intros x Hx. cbn in Hx. cbn.
      repeat (destruct Hx as [<-|Hx]; [tauto|]). contradiction. }
    assert (Hh : Forall (fun c => In c (lit "0123456789ABCDEF-")) [hyphen]).
    { constructor; [vm_compute; tauto | constructor]. }
    pose proof (fun l => @Forall_impl _ _ _ Hw l) as Hw'.
    repeat (apply Forall_app; split); auto.
Qed.

(** A match of [GUID_REGEX] is ASCII text, where [upper] is [str.upper]. *)
Lemma search_GUID_REGEX_ascii s m :
  Re.search GUID_REGEX s = Some m -> Forall (fun c => (c < 128)%N) m.
Proof.
  intros H. apply search_sound in H as (pre & post & _ & Hm & _).
  apply matches_GUID_REGEX in Hm as (a & b & c & d & e & -> & Ha & Hb & Hc & Hd & He).
  assert (Hx : forall x, In x hex_digits -> (x < 128)%N).
  { intros x Hx. cbn in Hx.
    repeat (destruct Hx as [<-|Hx]; [reflexivity|]). contradiction. }
  assert (Hh : Forall (fun c => (c < 128)%N) [hyphen]).
  { constructor; [reflexivity | constructor]. }
  destruct Ha as [_ Ha], Hb as [_ Hb], Hc as [_ Hc], Hd as [_ Hd], He as [_ He].
  pose proof (fun l => @Forall_impl _ _ _ Hx l) as Hx'.
  repeat (apply Forall_app; split); auto.
Qed.

End GuidGrammar.

(** ** The identifier matcher *)

Lemma search_GUID_REGEX_some s m :
  Re.search GUID_REGEX s = Some m <-> exists pre post, leftmost_guid s pre m post.
Proof.
  split.
  - intros H. apply search_sound in H as (pre & post & Hs & Hm & Hleft).
    exists pre, post. repeat split; auto.
    + now apply matches_GUID_REGEX.
    + intros pre' g' post' Heq Hg'. eapply Hleft; eauto.
      now apply matches_GUID_REGEX.
  - intros (pre & post & -> & Hg & Hleft).
    apply search_complete.
    + now apply matches_GUID_REGEX.
    + intros pre' m' post' Heq Hm'. eapply Hleft; eauto.
      now apply matches_GUID_REGEX.
Qed.

Lemma search_GUID_REGEX_none s :
  Re.search GUID_REGEX s = None <->
  ~ exists pre g post, s = pre ++ g ++ post /\ is_guid g.
Proof.
  split.
  - intros H (pre & g & post & Hs & Hg).
    eapply search_none; eauto. now apply matches_GUID_REGEX.
  - intros Hno. destruct (Re.search GUID_REGEX s) as [m|] eqn:Hm; [|reflexivity].
    exfalso. apply Hno.
    apply search_GUID_REGEX_some in Hm as (pre & post & Hs & Hg & _).
    now exists pre, m, post.
Qed.

(** ** Substrings *)

Lemma startswith_spec p : forall s,
  startswith p s = true <-> exists b, s = p ++ b.
Proof.
  induction p as [|a p IH]; intros s; cbn.
  - split; [intros _; now exists s | reflexivity].
  - destruct s as [|c s].
    + split; [discriminate | intros [b Hb]; discriminate].
    + rewrite andb_true_iff, N.eqb_eq, IH. split.
      * intros [-> [b ->]]. now exists b.
      * intros [b [= -> ->]]. split; [reflexivity | now exists b].
Qed.

Lemma contains_spec p : forall s,
  contains p s = true <-> exists a b, s = a ++ p ++ b.
Proof.
  induction s as [|c s IH]; cbn [contains]; rewrite orb_true_iff, startswith_spec.
  - split.
    + intros [[b Hb]|Hf]; [now exists [], b | discriminate].
    + intros ([|? ?] & b & Hb); [left; now exists b | discriminate].
  - rewrite IH. split.
    + intros [[b Hb]|(a & b & ->)]; [now exists [], b | now exists (c :: a), b].
    + intros ([|c' a] & b & Hb); [left; now exists b|].
      injection Hb as <- ->. right. now exists a, b.
Qed.

(** ** The results of the subprocess layer *)

Lemma run_command_eq env cmd timeout w :
  run_command env cmd timeout w =
  match result (react env (spawned w)) with
  | CompletedProcess rc out err =>
      (Ok (rc, strip out, strip err), after_spawn env cmd timeout w)
  | Expired =>
      (Ok (124%Z, [], lit "Timeout expired"), after_spawn env cmd timeout w)
  | NotRun => (Raise OSError, after_spawn env cmd timeout w)
  end.
Proof.
  unfold run_command, try_except, subprocess_run, bind, ret, after_spawn.
  destruct (result (react env (spawned w))); reflexivity.
Qed.

(** ** The GUID extractor *)

(** Steps through the primitive actions of the monad. *)
Ltac step :=
  cbv beta iota delta
    [bind ret raise print print_end emit sleep time stat sys_exit];
  cbn [clock fs spawned trace negb].

Lemma scan_lines_cons line rest :
  scan_lines (line :: rest) =
  if contains BLDB_FILENAME line then
    print (lit "[+] Found relevant line:") ;;
    print (lit "    " ++ strip line) ;;
    match Re.search GUID_REGEX line with
    | Some m =>
        print (lit "[" ++ check_mark ++ lit "] GUID extracted: " ++ upper m) ;;
        ret (Some (upper m))
    | None => scan_lines rest
    end
  else scan_lines rest.
Proof. reflexivity. Qed.

Lemma scan_lines_result lines : forall w,
  fst (scan_lines lines w) = Ok (scan_result lines).
Proof.
  induction lines as [|line rest IH]; intros w; [reflexivity|].
  rewrite scan_lines_cons. cbn [scan_result].
  destruct (contains BLDB_FILENAME line); [|apply IH].
  step. destruct (Re.search GUID_REGEX line); step; [reflexivity | apply IH].
Qed.

Lemma scan_result_some lines u :
  scan_result lines = Some u <->
  exists before line after pre g post,
    lines = before ++ line :: after
    /\ Forall (fun l => ~ (has_marker l /\ has_guid l)) before
    /\ has_marker line /\ leftmost_guid line pre g post /\ u = upper g.
Proof.
  induction lines as [|l rest IH]; cbn [scan_result].
  - split; [discriminate|].
    intros (before & line & after & _ & _ & _ & H & _).
    destruct before; discriminate.
  - destruct (contains BLDB_FILENAME l) eqn:Hc.
    + destruct (Re.search GUID_REGEX l) as [m|] eqn:Hm.
      * split.
        -- intros [= <-].
           apply search_GUID_REGEX_some in Hm as (pre & post & Hleft).
           exists [], l, rest, pre, m, post.
           split; [reflexivity|]. split; [constructor|].
           split; [now apply contains_spec|]. split; [exact Hleft | reflexivity].
        -- intros (before & line & after & pre & g & post & Heq & Hb & Hmk & Hleft & ->).
           destruct before as [|b before]; cbn in Heq;
             [injection Heq as <- <- | injection Heq as <- ->].
           ++ assert (Hg : Re.search GUID_REGEX l = Some g)
                by (apply search_GUID_REGEX_some; eauto).
              congruence.
           ++ inversion Hb as [|? ? Hl _]; subst. exfalso. apply Hl. split.
              ** now apply contains_spec.
              ** apply search_GUID_REGEX_some in Hm as (pre' & post' & Hs & Hg & _).
                 now exists pre', m, post'.
      * rewrite IH. split.
        -- intros (before & line & after & pre & g & post & -> & Hb & Hrest).
           exists (l :: before), line, after, pre, g, post.
           split; [reflexivity|]. split; [|exact Hrest].
           constructor; auto. intros [_ Hg].
           now apply search_GUID_REGEX_none in Hm.
        -- intros (before & line & after & pre & g & post & Heq & Hb & Hmk & Hleft & ->).
           destruct before as [|b before]; cbn in Heq;
             [injection Heq as <- <- | injection Heq as <- ->].
           ++ assert (Hg : Re.search GUID_REGEX l = Some g)
                by (apply search_GUID_REGEX_some; eauto).
              congruence.
           ++ inversion Hb; subst.
              exists before, line, after, pre, g, post. auto.
    + rewrite IH. split.
      * intros (before & line & after & pre & g & post & -> & Hb & Hrest).
        exists (l :: before), line, after, pre, g, post.
        split; [reflexivity|]. split; [|exact Hrest].
        constructor; auto. intros [Hmk _].
        apply contains_spec in Hmk. congruence.
      * intros (before & line & after & pre & g & post & Heq & Hb & Hmk & Hleft & ->).
        destruct before as [|b before]; cbn in Heq;
          [injection Heq as <- <- | injection Heq as <- ->].
        -- apply contains_spec in Hmk. congruence.
        -- inversion Hb; subst.
           exists before, line, after, pre, g, post. auto.
Qed.

Lemma scan_result_none lines :
  scan_result lines = None <->
  Forall (fun l => ~ (has_marker l /\ has_guid l)) lines.
Proof.
  induction lines as [|l rest IH]; cbn [scan_result].
  - split; auto.
  - destruct (contains BLDB_FILENAME l) eqn:Hc.
    + destruct (Re.search GUID_REGEX l) as [m|] eqn:Hm.
      * split; [discriminate|]. intros H. inversion H as [|? ? Hl _]; subst.
        exfalso. apply Hl. split; [now apply contains_spec|].
        apply search_GUID_REGEX_some in Hm as (pre' & post' & Hs & Hg & _).
        now exists pre', m, post'.
      * rewrite IH. split.
        -- intros H. constructor; auto. intros [_ Hg].
           now apply search_GUID_REGEX_none in Hm.
        -- intros H. now inversion H.
    + rewrite IH. split.
      * intros H. constructor; auto. intros [Hmk _].
        apply contains_spec in Hmk. congruence.
      * intros H. now inversion H.
Qed.

Lemma extract_guid_from_archive_value env archive_path w :
  fst (extract_guid_from_archive env archive_path w) =
  match result (react env (spawned w)) with
  | CompletedProcess rc out _ =>
      if (rc =? 0)%Z then Ok (scan_result (splitlines (strip out))) else Ok None
  | Expired => Ok None
  | NotRun => Raise OSError
  end.
Proof.
  unfold extract_guid_from_archive. step. rewrite run_command_eq. cbn [spawned].
  destruct (result (react env (spawned w))) as [rc out err| |]; cbn [fst].
  - destruct (rc =? 0)%Z; cbn [negb]; [apply scan_lines_result | reflexivity].
  - reflexivity.
  - reflexivity.
Qed.

(** C1 (as amended).  When the filtered log query exits with status 0, the
    extractor scans the lines of its output in order and answers with the
    upper-cased leftmost identifier of the first line that holds both the
    marker and an identifier; it answers "not found" exactly when no line
    holds both.  A marker line without an identifier does not end the scan. *)
Theorem extract_guid_first_identifier_line env archive_path w out err :
  result (react env (spawned w)) = CompletedProcess 0 out err ->
  exists r,
    fst (extract_guid_from_archive env archive_path w) = Ok r
    /\ extract_answers (splitlines (strip out)) r.
Proof.
  intros Hres. exists (scan_result (splitlines (strip out))).
  rewrite extract_guid_from_archive_value, Hres. cbn [Z.eqb].
  split; [reflexivity|]. split.
  - intros u. apply scan_result_some.
  - apply scan_result_none.
Qed.

Lemma extract_guid_first_identifier_line_witness :
  result (react (ex_answers (CompletedProcess 0 ex_guid_line []))
                (spawned ex_empty_world))
  = CompletedProcess 0 ex_guid_line []
  /\ exists r,
       fst (extract_guid_from_archive
              (ex_answers (CompletedProcess 0 ex_guid_line []))
              [lit "archive"] ex_empty_world) = Ok r
       /\ extract_answers (splitlines (strip ex_guid_line)) r.
Proof.
  split; [reflexivity|].
  apply (@extract_guid_first_identifier_line
           (ex_answers (CompletedProcess 0 ex_guid_line []))
           [lit "archive"] ex_empty_world ex_guid_line []).
  reflexivity.
Defined.

(** C1 as stated fails: the first marker line of this output holds no
    identifier, so the first-marker-line-only reading answers "not found",
    yet the extractor goes on to the second marker line and answers with
    its identifier. *)
Lemma extract_guid_reads_later_marker_lines :
  find (contains BLDB_FILENAME) (splitlines (strip ex_two_marker_lines))
    = Some (lit "bookassetd: closing BLDatabaseManager.sqlite")
  /\ first_marker_line_only (splitlines (strip ex_two_marker_lines)) = None
  /\ fst (extract_guid_from_archive
            (ex_answers (CompletedProcess 0 ex_two_marker_lines []))
            [lit "archive"] ex_empty_world)
     = Ok (Some (lit "1234ABCD-5678-90EF-ABCD-1234567890AB"))
  /\ fst (extract_guid_from_archive
            (ex_answers (CompletedProcess 0 ex_two_marker_lines []))
            [lit "archive"] ex_empty_world)
     <> Ok (first_marker_line_only (splitlines (strip ex_two_marker_lines))).
Proof. vm_compute. repeat split; discriminate. Qed.

(** ** The archive collector *)

Lemma files_size_app l1 l2 :
  files_size (l1 ++ l2) = (files_size l1 + files_size l2)%N.
Proof.
  unfold files_size. rewrite filter_app, map_app.
  induction (map _ (filter _ l1)) as [|x l IH]; cbn; [reflexivity|].
  rewrite IH. lia.
Qed.

Lemma files_size_relocate (x : str) l :
  files_size (map (fun q => (x :: fst q, snd q)) l) = files_size l.
Proof.
  unfold files_size. induction l as [|[p n] l IH]; cbn; [reflexivity|].
  destruct (is_file n); cbn; now rewrite IH.
Qed.

Lemma files_size_cons (q : Path * node) l :
  files_size (q :: l) = (st_size (snd q) + files_size l)%N.
Proof. destruct q as [p []]; reflexivity. Qed.

(** The sizes summed over the recursive listing of a directory are the
    sizes of all regular files in it, at any depth. *)
Lemma files_size_rglob n :
  (files_size (rglob n) + st_size n = tree_size n)%N.
Proof.
  induction n as [sz|cs IH|] using node_ind; try reflexivity.
  cbn [rglob st_size tree_size]. rewrite N.add_0_r.
  induction IH as [|e cs He _ IHcs]; [reflexivity|].
  cbn [flat_map fold_right].
  rewrite files_size_app, files_size_cons, files_size_relocate, IHcs.
  cbn [snd]. lia.
Qed.

Lemma files_size_rglob_dir cs :
  files_size (rglob (Dir cs)) = tree_size (Dir cs).
Proof. rewrite <- files_size_rglob. cbn [st_size]. now rewrite N.add_0_r. Qed.

Lemma collect_syslog_archive_value env archive_path timeout w :
  fst (collect_syslog_archive env archive_path timeout w) =
  match result (react env (spawned w)) with
  | NotRun => Raise OSError
  | _ =>
      match lookup (effect (react env (spawned w)) (fs w)) archive_path with
      | Some (Dir cs) => Ok (negb (tree_size (Dir cs) <? 10000000)%N)
      | _ => Ok false
      end
  end.
Proof.
  unfold collect_syslog_archive. step. rewrite run_command_eq.
  cbn [spawned].
  destruct (result (react env (spawned w))) as [rc out err| |]; step;
    try reflexivity; cbn [after_spawn fs spawned];
    (destruct (lookup (effect (react env (spawned w)) (fs w)) archive_path)
       as [[sz|cs|]|]; cbn [exists_ is_dir negb orb]; step; try reflexivity).
  all: change (fold_right N.add 0%N (map _ (filter _ (rglob (Dir cs)))))
         with (files_size (rglob (Dir cs)));
       rewrite files_size_rglob_dir;
       destruct (tree_size (Dir cs) <? 10000000)%N; reflexivity.
Qed.



(** ** The reconnection waiter *)

Lemma wait_loop_eq env start timeout w :
  wait_loop env start timeout w =
  if (clock w - start <? seconds timeout)%Z then
    match poll env w with
    | (Ok None, w') => wait_loop env start timeout w'
    | (Ok (Some b), w') => (Ok b, w')
    | (Raise e, w') => (Raise e, w')
    end
  else (print timed_out_msg ;; ret false) w.
Proof.
  simp wait_loop.
  destruct (Z_lt_dec (clock w - start) (seconds timeout)) as [Hlt|Hge];
    cbn [wait_loop_unfold_clause_1].
  - apply Z.ltb_lt in Hlt as Hb. rewrite Hb.
    assert (Hcl : forall s : {y | poll env w = y},
      wait_loop_unfold_clause_1_clause_1 env start timeout w s Hlt =
      match proj1_sig s with
      | (Ok None, w') => wait_loop env start timeout w'
      | (Ok (Some b), w') => (Ok b, w')
      | (Raise e, w') => (Raise e, w')
      end).
    { intros [[[[b|]|e] w'] H]; reflexivity. }
    apply Hcl.
  - rewrite (proj2 (Z.ltb_ge _ _)) by lia. reflexivity.
Qed.

Lemma poll_eq env w :
  poll env w =
  match result (react env (spawned w)) with
  | CompletedProcess rc _ _ =>
      if (rc =? 0)%Z then (Ok (Some true), settled env w)
      else (Ok None, retried env w)
  | Expired => (Ok None, retried env w)
  | NotRun => (Raise OSError, after_spawn env presence_cmd (Some 10%Z) w)
  end.
Proof.
  unfold poll. step. rewrite run_command_eq. fold presence_cmd.
  unfold retried, settled, advance, connected_msg.
  destruct (result (react env (spawned w))) as [rc out err| |]; step;
    [ destruct (rc =? 0)%Z | change (124 =? 0)%Z with false | ];
    step; rewrite <- ?app_assoc; reflexivity.
Qed.

Lemma retries_succ env n : forall w,
  retries env w (S n) = retried env (retries env w n).
Proof.
  induction n as [|n IH]; intros w; [reflexivity|].
  cbn [retries] in *. now rewrite IH.
Qed.

Lemma retries_spawned env n : forall w,
  spawned (retries env w n) = spawned w + n.
Proof.
  induction n as [|n IH]; intros w; cbn [retries]; [lia|].
  rewrite IH. cbn. lia.
Qed.

Lemma check_start_succ env w k :
  check_start env w (S k) = check_start env (retried env w) k.
Proof.
  unfold check_start. rewrite <- cons_seq, <- seq_shift.
  cbn [map fold_right retried advance after_spawn clock spawned].
  rewrite map_map, Nat.add_0_r.
  rewrite (map_ext (fun j => (Z.of_N (elapsed (react env (spawned w + S j))) + seconds 3)%Z)
                   (fun j => (Z.of_N (elapsed (react env (S (spawned w) + j))) + seconds 3)%Z)).
  - lia.
  - intros j. now rewrite Nat.add_succ_r.
Qed.

Lemma retries_clock env n : forall w,
  clock (retries env w n) = check_start env w n.
Proof.
  induction n as [|n IH]; intros w.
  - unfold check_start. cbn. lia.
  - cbn [retries]. now rewrite IH, check_start_succ.
Qed.

Lemma check_start_lower_bound env w k :
  (clock w + 3000 * Z.of_nat k <= check_start env w k)%Z.
Proof.
  revert w. induction k as [|k IH]; intros w.
  - unfold check_start. cbn. lia.
  - rewrite check_start_succ. specialize (IH (retried env w)).
    cbn [retried advance after_spawn clock] in IH. unfold seconds in IH. lia.
Qed.

Lemma check_start_mono env w j k :
  j <= k -> (check_start env w j <= check_start env w k)%Z.
Proof.
  induction 1 as [|k Hle IH]; [lia|].
  rewrite <- !retries_clock in *. rewrite retries_succ.
  cbn [retried advance after_spawn clock]. unfold seconds. lia.
Qed.

Lemma retries_trace env n : forall w,
  trace (retries env w n) =
  trace w ++ concat (repeat [Spawn presence_cmd (Some 10%Z); Print (lit "."); Sleep 3] n).
Proof.
  induction n as [|n IH]; intros w; cbn [retries repeat concat].
  - now rewrite app_nil_r.
  - rewrite IH. cbn [retried advance after_spawn trace].
    now rewrite <- !app_assoc.
Qed.

(** How the loop ends: after some number [n] of failed checks, each
    started before the deadline, either the deadline has passed, or the
    next check succeeds, or the tool cannot be run. *)
Lemma wait_loop_run env start timeout : forall w,
  exists n,
    (forall j, j < n ->
       (check_start env w j - start < seconds timeout)%Z
       /\ check_failed (check env w j) = true)
    /\ ((~ (check_start env w n - start < seconds timeout)%Z
         /\ wait_loop env start timeout w
            = (Ok false, printed timed_out_msg (retries env w n)))
        \/ ((check_start env w n - start < seconds timeout)%Z
            /\ check_ok (check env w n) = true
            /\ wait_loop env start timeout w
               = (Ok true, settled env (retries env w n)))
        \/ ((check_start env w n - start < seconds timeout)%Z
            /\ check env w n = NotRun
            /\ wait_loop env start timeout w
               = (Raise OSError,
                  after_spawn env presence_cmd (Some 10%Z) (retries env w n)))).
Proof.
  intros w.
  remember (Z.to_nat (start + seconds timeout - clock w)) as left_ eqn:Hleft.
  revert w Hleft.
  induction left_ as [left_ IH] using lt_wf_ind. intros w Hleft.
  assert (H0 : check_start env w 0 = clock w) by (unfold check_start; cbn; lia).
  assert (Hc0 : check env w 0 = result (react env (spawned w)))
    by (unfold check; now rewrite Nat.add_0_r).
  rewrite wait_loop_eq.
  destruct (clock w - start <? seconds timeout)%Z eqn:Hin.
  2: { apply Z.ltb_ge in Hin. exists 0. split; [intros j Hj; lia|].
       left. rewrite H0. split; [lia | reflexivity]. }
  apply Z.ltb_lt in Hin. rewrite poll_eq.
  destruct (result (react env (spawned w))) as [rc out err| |] eqn:Hres.
  1: destruct (rc =? 0)%Z eqn:Hrc.
  - (* the check succeeds *)
    exists 0. split; [intros j Hj; lia|]. right; left.
    rewrite H0, Hc0, ?Hres. cbn [check_ok]. auto.
  - (* the check ends with a non-zero status *)
    destruct (IH (Z.to_nat (start + seconds timeout - clock (retried env w))))
      with (w := retried env w) as (n & Hfail & Hend); [|reflexivity|].
    { subst left_. cbn [retried advance after_spawn clock]. unfold seconds in *. lia. }
    exists (S n). split.
    + intros [|j] Hj.
      * rewrite H0, Hc0, ?Hres. cbn [check_failed]. rewrite Hrc. auto.
      * rewrite check_start_succ. unfold check in *.
        specialize (Hfail j ltac:(lia)).
        cbn [retried advance after_spawn spawned] in Hfail.
        now rewrite Nat.add_succ_r.
    + rewrite check_start_succ. unfold check in *.
      cbn [retries].
      cbn [retried advance after_spawn spawned] in Hend.
      now rewrite Nat.add_succ_r.
  - (* the check is still running at its timeout *)
    destruct (IH (Z.to_nat (start + seconds timeout - clock (retried env w))))
      with (w := retried env w) as (n & Hfail & Hend); [|reflexivity|].
    { subst left_. cbn [retried advance after_spawn clock]. unfold seconds in *. lia. }
    exists (S n). split.
    + intros [|j] Hj.
      * rewrite H0, Hc0, ?Hres. cbn [check_failed]. auto.
      * rewrite check_start_succ. unfold check in *.
        specialize (Hfail j ltac:(lia)).
        cbn [retried advance after_spawn spawned] in Hfail.
        now rewrite Nat.add_succ_r.
    + rewrite check_start_succ. unfold check in *.
      cbn [retries].
      cbn [retried advance after_spawn spawned] in Hend.
      now rewrite Nat.add_succ_r.
  - (* the tool cannot be run *)
    exists 0. split; [intros j Hj; lia|]. right; right.
    rewrite H0, Hc0. auto.
Qed.

Lemma wait_for_device_eq env timeout w :
  wait_for_device env timeout w =
  wait_loop env (clock w) timeout (snd (print_end waiting_msg [] w)).
Proof. reflexivity. Qed.

Lemma check_ok_not_failed r : check_ok r = true -> check_failed r = false.
Proof. destruct r as [rc ? ?| |]; cbn; try discriminate. now intros ->. Qed.

(** C4.  For every maximum wait and every sequence of presence-check
    outcomes (each check ends with a status or at its timeout), the waiter
    returns a boolean after some number [n] of failed checks, each started
    before the deadline and followed by the same sleep of 3 seconds.  It
    returns true exactly when some check started before the deadline ends
    with status 0 (the first such check is the [n]-th), and then sleeps the
    settle delay of 10 seconds right after that success; it returns false
    exactly when every check started before the deadline fails, however
    many there are. *)
Theorem wait_for_device_polls env timeout w :
  (forall k, check env w k <> NotRun) ->
  exists (b : bool) (n : nat),
    fst (wait_for_device env timeout w) = Ok b
    /\ (forall j, j < n ->
          in_time env w timeout j /\ check_failed (check env w j) = true)
    /\ (b = true <->
        exists k, in_time env w timeout k /\ check_ok (check env w k) = true)
    /\ (b = false <->
        forall k, in_time env w timeout k -> check_failed (check env w k) = true)
    /\ (if b then in_time env w timeout n /\ check_ok (check env w n) = true
        else ~ in_time env w timeout n)
    /\ trace (snd (wait_for_device env timeout w))
       = trace w ++ [Print waiting_msg]
         ++ concat (repeat [Spawn presence_cmd (Some 10%Z); Print (lit "."); Sleep 3] n)
         ++ (if b then [Spawn presence_cmd (Some 10%Z); Print (connected_msg ++ nl); Sleep 10]
             else [Print (timed_out_msg ++ nl)])
    /\ clock (snd (wait_for_device env timeout w))
       = (if b
          then check_start env w n + Z.of_N (elapsed (react env (spawned w + n)))
               + seconds 10
          else check_start env w n)%Z.
Proof.
  intros Hrun. rewrite wait_for_device_eq.
  set (w0 := snd (print_end waiting_msg [] w)).
  assert (Hstart : forall k, check_start env w0 k = check_start env w k) by reflexivity.
  assert (Hcheck : forall k, check env w0 k = check env w k) by reflexivity.
  destruct (wait_loop_run env (clock w) timeout w0) as (n & Hfail & Hend).
  setoid_rewrite Hstart in Hfail. setoid_rewrite Hcheck in Hfail.
  rewrite Hstart, Hcheck in Hend. fold (in_time env w timeout n) in Hend.
  assert (Hlate : forall k, n <= k -> ~ in_time env w timeout n ->
                            ~ in_time env w timeout k).
  { unfold in_time. intros k Hk Hn. pose proof (check_start_mono env w Hk). lia. }
  destruct Hend as [(Hout & ->) | [(Hin & Hok & ->) | (_ & Hnot & _)]];
    [exists false, n | exists true, n | now apply Hrun in Hnot].
  - (* the deadline passes *)
    split; [reflexivity|]. split; [exact Hfail|].
    split; [|split; [|split; [exact Hout|split]]].
    + split; [discriminate|]. intros (k & Hk & Hokk).
      destruct (Nat.lt_ge_cases k n) as [Hlt|Hge].
      * apply check_ok_not_failed in Hokk.
        destruct (Hfail k Hlt) as [_ Hf]. congruence.
      * now apply (Hlate k Hge Hout) in Hk.
    + split; [|reflexivity]. intros _ k Hk.
      destruct (Nat.lt_ge_cases k n) as [Hlt|Hge]; [now apply Hfail|].
      now apply (Hlate k Hge Hout) in Hk.
    + unfold printed. cbn [snd print print_end emit trace].
      rewrite retries_trace. subst w0. cbn [snd print_end emit trace].
      rewrite app_nil_r, <- !app_assoc. reflexivity.
    + unfold printed. cbn [snd print print_end emit clock].
      now rewrite retries_clock.
  - (* a check succeeds *)
    split; [reflexivity|]. split; [exact Hfail|].
    split; [|split; [|split; [auto|split]]].
    + split; [|reflexivity]. intros _. now exists n.
    + split; [discriminate|]. intros Hall.
      apply check_ok_not_failed in Hok. rewrite (Hall n Hin) in Hok. discriminate.
    + cbn [snd settled advance after_spawn trace].
      rewrite retries_trace. subst w0. cbn [snd print_end emit trace].
      rewrite app_nil_r, <- !app_assoc. reflexivity.
    + cbn [snd settled advance after_spawn clock].
      rewrite retries_clock, retries_spawned, Hstart. reflexivity.
Qed.

Lemma wait_for_device_polls_witness :
  (forall k, check ex_reconnect_env ex_empty_world k <> NotRun)
  /\ exists b,
       fst (wait_for_device ex_reconnect_env 180 ex_empty_world) = Ok b
       /\ (b = true <->
           exists k, in_time ex_reconnect_env ex_empty_world 180 k
                     /\ check_ok (check ex_reconnect_env ex_empty_world k) = true).
Proof.
  assert (Hrun : forall k, check ex_reconnect_env ex_empty_world k <> NotRun).
  { intros [|[|k]]; discriminate. }
  split; [exact Hrun|].
  destruct (@wait_for_device_polls ex_reconnect_env 180 ex_empty_world Hrun)
    as (b & n & Hb & _ & Htrue & _).
  exists b. split; [exact Hb | exact Htrue].
Defined.

(** C9.  With a maximum wait that is not positive the waiter starts no
    presence check and returns false: the deadline is tested before the
    first check.  All it does is print its two messages. *)
Theorem wait_for_device_nonpositive env timeout w :
  (timeout <= 0)%Z ->
  fst (wait_for_device env timeout w) = Ok false
  /\ spawned (snd (wait_for_device env timeout w)) = spawned w
  /\ trace (snd (wait_for_device env timeout w))
     = trace w ++ [Print waiting_msg; Print (timed_out_msg ++ nl)].
Proof.
  intros Hle. rewrite wait_for_device_eq, wait_loop_eq.
  cbn [snd print_end emit clock].
  replace (clock w - clock w <? seconds timeout)%Z with false
    by (symmetry; apply Z.ltb_ge; unfold seconds; lia).
  step. cbn [fst snd spawned trace].
  repeat split. rewrite app_nil_r, <- app_assoc. reflexivity.
Qed.

Lemma wait_for_device_nonpositive_witness :
  (0 <= 0)%Z
  /\ fst (wait_for_device ex_reconnect_env 0 ex_empty_world) = Ok false
  /\ spawned (snd (wait_for_device ex_reconnect_env 0 ex_empty_world)) = 0.
Proof.
  split; [lia|].
  destruct (@wait_for_device_nonpositive ex_reconnect_env 0 ex_empty_world)
    as (Hv & Hs & _); [lia|].
  split; [exact Hv | exact Hs].
Defined.

(** ** Runs that differ in what the commands print or in how they fail *)

Section Agree.

Lemma deeds_emit w e :
  deeds (mkWorld (clock w) (fs w) (spawned w) (trace w ++ [e]))
  = deeds w ++ (if is_print e then [] else [e]).
Proof.
  unfold deeds. cbn [trace]. rewrite filter_app. cbn [filter].
  destruct (is_print e); reflexivity.
Qed.

Lemma agree_ret {A B} (R : A -> B -> Prop) a b : R a b -> agree R (ret a) (ret b).
Proof. intros HR w1 w2 Hw. split; [exact Hw | exact HR]. Qed.

Lemma agree_raise {A B} (R : A -> B -> Prop) e : agree R (raise e) (raise e).
Proof. intros w1 w2 Hw. split; [exact Hw | reflexivity]. Qed.

Lemma agree_bind {A B A' B'} (R : A -> B -> Prop) (R' : A' -> B' -> Prop)
    (c1 : M A) (c2 : M B) (k1 : A -> M A') (k2 : B -> M B') :
  agree R c1 c2 -> (forall a b, R a b -> agree R' (k1 a) (k2 b)) ->
  agree R' (bind c1 k1) (bind c2 k2).
Proof.
  intros Hc Hk w1 w2 Hw. unfold bind.
  specialize (Hc w1 w2 Hw).
  destruct (c1 w1) as [[a|e1] w1'], (c2 w2) as [[b|e2] w2'];
    cbn [fst snd] in *; destruct Hc as [Hw' HR]; try contradiction.
  - now apply Hk.
  - auto.
Qed.

Lemma agree_seq {A' B'} (R' : A' -> B' -> Prop)
    (c1 c2 : M unit) (k1 : M A') (k2 : M B') :
  agree eq c1 c2 -> agree R' k1 k2 ->
  agree R' (bind c1 (fun _ => k1)) (bind c2 (fun _ => k2)).
Proof. intros Hc Hk. apply agree_bind with (R := eq); auto. Qed.

Lemma agree_print t1 e1 t2 e2 : agree eq (print_end t1 e1) (print_end t2 e2).
Proof.
  intros w1 w2 (Hc & Hf & Hs & Hd). unfold print_end, emit. cbn [fst snd].
  split; [|reflexivity]. repeat split; cbn [clock fs spawned]; auto.
  rewrite !deeds_emit. cbn [is_print]. now rewrite Hd.
Qed.

Lemma agree_sleep secs : agree eq (sleep secs) (sleep secs).
Proof.
  intros w1 w2 (Hc & Hf & Hs & Hd). unfold sleep. cbn [fst snd].
  split; [|reflexivity]. repeat split; cbn [clock fs spawned]; auto.
  - now rewrite Hc.
  - pose proof (deeds_emit (mkWorld (clock w1 + seconds secs) (fs w1) (spawned w1) (trace w1))
                           (Sleep secs)) as H1.
    pose proof (deeds_emit (mkWorld (clock w2 + seconds secs) (fs w2) (spawned w2) (trace w2))
                           (Sleep secs)) as H2.
    cbn [clock fs spawned trace] in H1, H2. rewrite H1, H2.
    unfold deeds in *. cbn [trace]. now rewrite Hd.
Qed.

Lemma agree_time : agree eq time time.
Proof. intros w1 w2 Hw. split; [exact Hw | apply Hw]. Qed.

Lemma agree_stat p : agree eq (stat p) (stat p).
Proof.
  intros w1 w2 Hw. split; [exact Hw|]. unfold stat. cbn [fst].
  destruct Hw as (_ & -> & _). reflexivity.
Qed.

Lemma agree_finally {A B} (R : A -> B -> Prop) c1 c2 f1 f2 :
  agree R c1 c2 -> agree eq f1 f2 -> agree R (finally c1 f1) (finally c2 f2).
Proof.
  intros Hc Hf w1 w2 Hw. unfold finally.
  specialize (Hc w1 w2 Hw).
  destruct (c1 w1) as [r1 w1'], (c2 w2) as [r2 w2']. cbn [fst snd] in Hc.
  destruct Hc as [Hw' HR]. specialize (Hf w1' w2' Hw').
  destruct (f1 w1') as [[[]|e1] w1''], (f2 w2') as [[[]|e2] w2''];
    cbn [fst snd] in *; destruct Hf as [Hw'' Hf]; try contradiction; auto.
Qed.

Variables env1 env2 : Env.
Hypothesis Halike : alike env1 env2.

Lemma agree_run_command cmd timeout :
  agree same_answer (run_command env1 cmd timeout) (run_command env2 cmd timeout).
Proof.
  intros w1 w2 (Hc & Hf & Hs & Hd). rewrite !run_command_eq.
  destruct Halike as [_ Hn]. specialize (Hn (spawned w1)).
  destruct Hn as (Hv & He & Heff). rewrite <- Hs.
  assert (Hw : same_world (after_spawn env1 cmd timeout w1)
                          (after_spawn env2 cmd timeout w2)).
  { unfold after_spawn. rewrite <- Hs.
    repeat split; cbn [clock fs spawned].
    - now rewrite He, Hc.
    - now rewrite Heff, Hf.
    - pose proof (deeds_emit
        (mkWorld (clock w1 + Z.of_N (elapsed (react env1 (spawned w1))))
                 (effect (react env1 (spawned w1)) (fs w1)) (S (spawned w1)) (trace w1))
        (Spawn cmd timeout)) as H1.
      pose proof (deeds_emit
        (mkWorld (clock w2 + Z.of_N (elapsed (react env2 (spawned w1))))
                 (effect (react env2 (spawned w1)) (fs w2)) (S (spawned w1)) (trace w2))
        (Spawn cmd timeout)) as H2.
      cbn [clock fs spawned trace] in H1, H2. rewrite H1, H2.
      unfold deeds in *. cbn [trace]. now rewrite Hd. }
  destruct (result (react env1 (spawned w1))) as [c1 o1 e1| |],
           (result (react env2 (spawned w1))) as [c2 o2 e2| |];
    cbn [same_verdict] in Hv; try contradiction; cbn [fst snd];
    (split; [exact Hw|]); try reflexivity; cbn [same_answer].
  - destruct Hv as [(-> & -> & Ho) | (H1 & H2)].
    + split; auto.
    + apply Z.eqb_neq in H1, H2. rewrite H1, H2. split; [reflexivity | discriminate].
  - apply Z.eqb_neq in Hv. rewrite Hv. split; [reflexivity | discriminate].
  - apply Z.eqb_neq in Hv. rewrite Hv. split; [reflexivity | discriminate].
  - split; [reflexivity | discriminate].
Qed.

End Agree.

Section StagesAgree.

Variables env1 env2 : Env.
Hypothesis Halike : alike env1 env2.

Lemma agree_print_left t e : agree eq (print_end t e) (ret tt).
Proof.
  intros w1 w2 (Hc & Hf & Hs & Hd). unfold print_end, emit, ret. cbn [fst snd].
  split; [|reflexivity]. repeat split; cbn [clock fs spawned]; auto.
  rewrite deeds_emit. cbn [is_print]. now rewrite app_nil_r.
Qed.

Lemma agree_print_right t e : agree eq (ret tt) (print_end t e).
Proof.
  intros w1 w2 (Hc & Hf & Hs & Hd). unfold print_end, emit, ret. cbn [fst snd].
  split; [|reflexivity]. repeat split; cbn [clock fs spawned]; auto.
  rewrite deeds_emit. cbn [is_print]. now rewrite app_nil_r.
Qed.

Lemma agree_restart_device :
  agree eq (restart_device env1) (restart_device env2).
Proof.
  unfold restart_device. apply agree_seq; [apply agree_print|].
  eapply agree_bind; [apply agree_run_command; exact Halike|].
  intros [[c1 o1] e1] [[c2 o2] e2] [Hc _]. rewrite Hc.
  destruct (c2 =? 0)%Z.
  - apply agree_seq; [apply agree_print | now apply agree_ret].
  - apply agree_seq; [apply agree_print|].
    apply agree_seq; [|now apply agree_ret].
    destruct (nonempty e1), (nonempty e2).
    + apply agree_print.
    + apply agree_print_left.
    + apply agree_print_right.
    + now apply agree_ret.
Qed.

Lemma agree_poll : agree eq (poll env1) (poll env2).
Proof.
  unfold poll.
  eapply agree_bind; [apply agree_run_command; exact Halike|].
  intros [[c1 o1] e1] [[c2 o2] e2] [Hc _]. rewrite Hc.
  destruct (c2 =? 0)%Z.
  - apply agree_seq; [apply agree_print|].
    apply agree_seq; [apply agree_sleep | now apply agree_ret].
  - apply agree_seq; [apply agree_print|].
    apply agree_seq; [apply agree_sleep | now apply agree_ret].
Qed.

Lemma agree_wait_loop start timeout :
  agree eq (wait_loop env1 start timeout) (wait_loop env2 start timeout).
Proof.
  intros w1.
  remember (Z.to_nat (start + seconds timeout - clock w1)) as left_ eqn:Hleft.
  revert w1 Hleft.
  induction left_ as [left_ IH] using lt_wf_ind. intros w1 Hleft w2 Hw.
  rewrite !wait_loop_eq.
  assert (Hclock : clock w1 = clock w2) by apply Hw. rewrite <- Hclock.
  destruct (clock w1 - start <? seconds timeout)%Z eqn:Hin.
  2: { revert w1 w2 Hw Hleft Hclock Hin. intros w1 w2 Hw _ _ _.
       revert w1 w2 Hw.
       change (agree eq (print timed_out_msg ;; ret false)
                        (print timed_out_msg ;; ret false)).
       apply agree_seq; [apply agree_print | now apply agree_ret]. }
  pose proof (agree_poll Hw) as [Hw' Hr].
  destruct (poll env1 w1) as [[[b1|]|e1] w1'] eqn:Hp1,
           (poll env2 w2) as [[[b2|]|e2] w2'] eqn:Hp2;
    cbn [fst snd] in *; try contradiction; try discriminate.
  - injection Hr as ->. split; [exact Hw' | reflexivity].
  - apply (IH (Z.to_nat (start + seconds timeout - clock w1'))); auto.
    apply Z.ltb_lt in Hin.
    rewrite poll_eq in Hp1.
    destruct (result (react env1 (spawned w1))) as [rc ? ?| |];
      try destruct (rc =? 0)%Z; inversion Hp1; subst;
      cbn [retried advance after_spawn clock]; unfold seconds in *; lia.
  - split; [exact Hw' | exact Hr].
Qed.

Lemma agree_wait_for_device timeout :
  agree eq (wait_for_device env1 timeout) (wait_for_device env2 timeout).
Proof.
  unfold wait_for_device. apply agree_seq; [apply agree_print|].
  eapply agree_bind; [apply agree_time|].
  intros start ? <-. apply agree_wait_loop.
Qed.

Lemma agree_collect_syslog_archive archive_path timeout :
  agree eq (collect_syslog_archive env1 archive_path timeout)
           (collect_syslog_archive env2 archive_path timeout).
Proof.
  unfold collect_syslog_archive. apply agree_seq; [apply agree_print|].
  eapply agree_bind; [apply agree_run_command; exact Halike|].
  intros [[c1 o1] e1] [[c2 o2] e2] _.
  eapply agree_bind; [apply agree_stat|].
  intros st ? <-.
  destruct (negb (exists_ st) || negb (is_dir st)).
  - apply agree_seq; [apply agree_print | now apply agree_ret].
  - match goal with |- context [if ?c then _ else _] => destruct c end;
      (apply agree_seq; [apply agree_print | now apply agree_ret]).
Qed.

Lemma agree_scan_lines lines : agree eq (scan_lines lines) (scan_lines lines).
Proof.
  induction lines as [|line rest IH].
  - cbn [scan_lines]. apply agree_seq; [apply agree_print | now apply agree_ret].
  - rewrite scan_lines_cons.
    destruct (contains BLDB_FILENAME line); [|exact IH].
    apply agree_seq; [apply agree_print|].
    apply agree_seq; [apply agree_print|].
    destruct (Re.search GUID_REGEX line); [|exact IH].
    apply agree_seq; [apply agree_print | now apply agree_ret].
Qed.

Lemma agree_extract_guid_from_archive archive_path :
  agree eq (extract_guid_from_archive env1 archive_path)
           (extract_guid_from_archive env2 archive_path).
Proof.
  unfold extract_guid_from_archive. apply agree_seq; [apply agree_print|].
  eapply agree_bind; [apply agree_run_command; exact Halike|].
  intros [[c1 o1] e1] [[c2 o2] e2] [Hc Ho]. rewrite Hc in *.
  destruct (c2 =? 0)%Z; cbn [negb].
  - rewrite Ho by reflexivity. apply agree_scan_lines.
  - apply agree_seq; [apply agree_print | now apply agree_ret].
Qed.

Lemma agree_mkdtemp : agree eq (mkdtemp env1) (mkdtemp env2).
Proof.
  intros w1 w2 (Hc & Hf & Hs & Hd). unfold mkdtemp.
  destruct Halike as [<- _]. rewrite <- Hf.
  destruct (mkdir (fs w1) (tmpdir env1)) as [fs'|]; cbn [fst snd].
  - split; [|reflexivity]. repeat split; cbn [clock fs spawned]; auto.
    pose proof (deeds_emit (mkWorld (clock w1) fs' (spawned w1) (trace w1))
                           (Mkdtemp (tmpdir env1))) as H1.
    pose proof (deeds_emit (mkWorld (clock w2) fs' (spawned w2) (trace w2))
                           (Mkdtemp (tmpdir env1))) as H2.
    cbn [clock fs spawned trace] in H1, H2. rewrite H1, H2.
    unfold deeds in *. cbn [trace]. now rewrite Hd.
  - split; [|reflexivity]. repeat split; auto.
Qed.

Lemma agree_rmtree p : agree eq (rmtree p) (rmtree p).
Proof.
  intros w1 w2 (Hc & Hf & Hs & Hd). unfold rmtree. cbn [fst snd].
  split; [|reflexivity]. repeat split; cbn [clock fs spawned]; auto.
  - now rewrite Hf.
  - pose proof (deeds_emit (mkWorld (clock w1) (remove (fs w1) p) (spawned w1) (trace w1))
                           (Rmtree p)) as H1.
    pose proof (deeds_emit (mkWorld (clock w2) (remove (fs w2) p) (spawned w2) (trace w2))
                           (Rmtree p)) as H2.
    cbn [clock fs spawned trace] in H1, H2. rewrite H1, H2.
    unfold deeds in *. cbn [trace]. now rewrite Hd.
Qed.

Lemma agree_main : agree eq (main env1) (main env2).
Proof.
  unfold main. apply agree_seq; [apply agree_print|].
  eapply agree_bind; [apply agree_restart_device|]. intros rebooted ? <-.
  apply agree_seq.
  { destruct rebooted; [now apply agree_ret | apply agree_raise]. }
  eapply agree_bind; [apply agree_wait_for_device|]. intros connected ? <-.
  apply agree_seq.
  { destruct connected; [now apply agree_ret | apply agree_raise]. }
  apply agree_seq.
  2: { apply agree_seq; [apply agree_print | apply agree_raise]. }
  unfold TemporaryDirectory.
  eapply agree_bind; [apply agree_mkdtemp|]. intros d ? <-.
  apply agree_finally; [|apply agree_rmtree].
  eapply agree_bind; [apply agree_collect_syslog_archive|]. intros collected ? <-.
  apply agree_seq.
  { destruct collected; [now apply agree_ret|].
    apply agree_seq; [apply agree_print | apply agree_raise]. }
  eapply agree_bind; [apply agree_extract_guid_from_archive|]. intros guid ? <-.
  destruct guid as [g|]; [|now apply agree_ret].
  destruct (nonempty g); [|now apply agree_ret].
  apply agree_seq; [apply agree_print | apply agree_raise].
Qed.

End StagesAgree.

Lemma same_world_refl w : same_world w w.
Proof. repeat split. Qed.

Lemma agree_same_result {A} (c1 c2 : M A) w :
  agree eq c1 c2 ->
  fst (c1 w) = fst (c2 w) /\ same_world (snd (c1 w)) (snd (c2 w)).
Proof.
  intros H. destruct (H w w (same_world_refl w)) as [Hw Hr].
  split; [|exact Hw].
  destruct (fst (c1 w)), (fst (c2 w)); try contradiction; congruence.
Qed.

Lemma differ_only_in_stderr_alike env1 env2 :
  differ_only_in_stderr env1 env2 -> alike env1 env2.
Proof.
  intros [Ht Hn]. split; [exact Ht|]. intros n.
  destruct (Hn n) as (He & Hf & Hr). repeat split; auto.
  - destruct (result (react env1 n)) as [c1 o1 e1| |],
             (result (react env2 n)) as [c2 o2 e2| |];
      cbn; try contradiction; auto.
    destruct Hr as [-> ->]. destruct (Z.eq_dec c2 0); auto.
  - intros t. now rewrite Hf.
Qed.

(** C10.  In two runs whose commands differ only in what they write to
    standard error, each stage function (reboot trigger, reconnection
    waiter, archive collector, GUID extractor) returns the same value, or
    raises the same exception, from the same world; the two runs also leave
    the same clock, filesystem and sequence of commands and sleeps, and can
    differ only in what they print. *)
Theorem stages_ignore_stderr env1 env2 w :
  differ_only_in_stderr env1 env2 ->
  (fst (restart_device env1 w) = fst (restart_device env2 w)
   /\ same_world (snd (restart_device env1 w)) (snd (restart_device env2 w)))
  /\ (forall timeout,
        fst (wait_for_device env1 timeout w) = fst (wait_for_device env2 timeout w)
        /\ same_world (snd (wait_for_device env1 timeout w))
                      (snd (wait_for_device env2 timeout w)))
  /\ (forall archive_path timeout,
        fst (collect_syslog_archive env1 archive_path timeout w)
        = fst (collect_syslog_archive env2 archive_path timeout w)
        /\ same_world (snd (collect_syslog_archive env1 archive_path timeout w))
                      (snd (collect_syslog_archive env2 archive_path timeout w)))
  /\ (forall archive_path,
        fst (extract_guid_from_archive env1 archive_path w)
        = fst (extract_guid_from_archive env2 archive_path w)
        /\ same_world (snd (extract_guid_from_archive env1 archive_path w))
                      (snd (extract_guid_from_archive env2 archive_path w))).
Proof.
  intros Hdiff. apply differ_only_in_stderr_alike in Hdiff.
  split; [|split; [|split]]; intros; apply agree_same_result.
  - now apply agree_restart_device.
  - now apply agree_wait_for_device.
  - now apply agree_collect_syslog_archive.
  - now apply agree_extract_guid_from_archive.
Qed.

Lemma stages_ignore_stderr_witness :
  differ_only_in_stderr (ex_stderr_env (lit "No device found"))
                        (ex_stderr_env (lit "usbmuxd is not running"))
  /\ fst (restart_device (ex_stderr_env (lit "No device found")) ex_empty_world)
     = fst (restart_device (ex_stderr_env (lit "usbmuxd is not running")) ex_empty_world).
Proof.
  assert (H : differ_only_in_stderr (ex_stderr_env (lit "No device found"))
                                    (ex_stderr_env (lit "usbmuxd is not running"))).
  { split; [reflexivity|]. intros n. cbn. auto. }
  split; [exact H|].
  exact (proj1 (proj1 (@stages_ignore_stderr _ _ ex_empty_world H))).
Defined.

(** ** The pipeline *)

Lemma steps_app tr1 tr2 : steps (tr1 ++ tr2) = steps tr1 ++ steps tr2.
Proof. apply filter_app. Qed.

Lemma restart_device_runs env w :
  stage_runs (restart_device env) w [Spawn reboot_cmd (Some 30%Z)].
Proof.
  unfold stage_runs, restart_device. step. rewrite run_command_eq.
  fold reboot_cmd. cbn [spawned].
  destruct (result (react env (spawned w))) as [rc out err| |]; step;
    [ destruct (rc =? 0)%Z; step; [|destruct (nonempty (strip err)); step]
    | change (124 =? 0)%Z with false; step;
      change (nonempty (lit "Timeout expired")) with true; step
    | ];
    cbn [fst snd after_spawn trace];
    (split; [eexists; split; [rewrite <- !app_assoc; reflexivity | reflexivity]
            | intros e [=]; congruence]).
Qed.

Lemma steps_retries n :
  steps (concat (repeat [Spawn presence_cmd (Some 10%Z); Print (lit "."); Sleep 3] n))
  = repeat (Spawn presence_cmd (Some 10%Z)) n.
Proof.
  induction n as [|n IH]; [reflexivity|].
  cbn [repeat concat]. rewrite steps_app, IH. reflexivity.
Qed.

Lemma wait_for_device_runs env timeout w :
  exists k,
    stage_runs (wait_for_device env timeout) w (repeat (Spawn presence_cmd (Some 10%Z)) k).
Proof.
  unfold stage_runs. rewrite wait_for_device_eq.
  set (w0 := snd (print_end waiting_msg [] w)).
  destruct (wait_loop_run env (clock w) timeout w0)
    as (n & _ & [(_ & ->) | [(_ & _ & ->) | (_ & _ & ->)]]);
    [exists n | exists (S n) | exists (S n)];
    (split; [|intros e [=]; congruence]); cbn [snd];
    unfold printed, settled, advance, after_spawn; cbn [snd print print_end emit trace];
    rewrite retries_trace; subst w0; cbn [snd print_end emit trace];
    eexists; (split; [rewrite <- !app_assoc; reflexivity|]);
    rewrite !steps_app, steps_retries; cbn [steps filter is_step negb app];
    rewrite ?app_nil_r; try reflexivity.
  all: cbn [repeat]; now rewrite repeat_cons.
Qed.

Lemma collect_syslog_archive_runs env archive_path timeout w :
  stage_runs (collect_syslog_archive env archive_path timeout) w
             [Spawn (collect_cmd archive_path) (Some (timeout + 30)%Z)].
Proof.
  unfold stage_runs, collect_syslog_archive. step. rewrite run_command_eq.
  fold (collect_cmd archive_path). cbn [spawned].
  destruct (result (react env (spawned w))) as [rc out err| |]; step;
    try match goal with
        | |- context [if ?c then _ else _] => destruct c; step
        end;
    try match goal with
        | |- context [if ?c then _ else _] => destruct c; step
        end;
    cbn [fst snd after_spawn trace];
    (split; [eexists; split; [rewrite <- !app_assoc; reflexivity | reflexivity]
            | intros e [=]; congruence]).
Qed.

Lemma scan_lines_runs lines : forall w,
  exists tr, trace (snd (scan_lines lines w)) = trace w ++ tr /\ steps tr = [].
Proof.
  induction lines as [|line rest IH]; intros w.
  - cbn [scan_lines]. step. cbn [snd trace]. eexists. split; reflexivity.
  - rewrite scan_lines_cons.
    destruct (contains BLDB_FILENAME line); [|apply IH]. step.
    destruct (Re.search GUID_REGEX line); step.
    + cbn [snd trace]. eexists. split; [rewrite <- !app_assoc; reflexivity | reflexivity].
    + match goal with |- context [scan_lines rest ?w'] => destruct (IH w') as (tr & Htr & Hs) end.
      rewrite Htr. cbn [trace]. eexists.
      split; [rewrite <- !app_assoc; reflexivity|].
      rewrite !steps_app, Hs. reflexivity.
Qed.

Lemma extract_guid_from_archive_runs env archive_path w :
  stage_runs (extract_guid_from_archive env archive_path) w
             [Spawn (log_show_cmd archive_path) (Some 60%Z)].
Proof.
  split.
  2: { intros e. rewrite extract_guid_from_archive_value.
       destruct (result (react env (spawned w))) as [rc ? ?| |];
         try destruct (rc =? 0)%Z; intros [=]; congruence. }
  unfold extract_guid_from_archive. step. rewrite run_command_eq.
  fold (log_show_cmd archive_path). cbn [spawned].
  destruct (result (react env (spawned w))) as [rc out err| |]; step;
    [ destruct (rc =? 0)%Z; cbn [negb]; step
    | change (124 =? 0)%Z with false; cbn [negb]; step
    | ];
    cbn [fst snd after_spawn trace];
    try (eexists; split; [rewrite <- !app_assoc; reflexivity | reflexivity]).
  match goal with |- context [scan_lines ?l ?w'] =>
    destruct (scan_lines_runs l w') as (tr & Htr & Hs) end.
  rewrite Htr. cbn [after_spawn trace]. eexists.
  split; [rewrite <- !app_assoc; reflexivity|].
  rewrite !steps_app, Hs. reflexivity.
Qed.

Lemma main_eq env w :
  main env w =
  match restart_device env (printed banner w) with
  | (Ok true, w1) =>
      match wait_for_device env 180 w1 with
      | (Ok true, w2) =>
          match mkdtemp env w2 with
          | (Ok d, w3) =>
              match collect_syslog_archive env (archive_of d) 200 w3 with
              | (Ok true, w4) =>
                  match extract_guid_from_archive env (archive_of d) w4 with
                  | (Ok (Some g), w5) =>
                      if nonempty g
                      then (Raise (SystemExit 0), removed d (printed (success_msg g) w5))
                      else (Raise (SystemExit 1), printed not_found_msg (removed d w5))
                  | (Ok None, w5) =>
                      (Raise (SystemExit 1), printed not_found_msg (removed d w5))
                  | (Raise e, w5) => (Raise e, removed d w5)
                  end
              | (Ok false, w4) => (Raise (SystemExit 1), removed d (printed failed_msg w4))
              | (Raise e, w4) => (Raise e, removed d w4)
              end
          | (Raise e, w3) => (Raise e, w3)
          end
      | (Ok false, w2) => (Raise (SystemExit 1), w2)
      | (Raise e, w2) => (Raise e, w2)
      end
  | (Ok false, w1) => (Raise (SystemExit 1), w1)
  | (Raise e, w1) => (Raise e, w1)
  end.
Proof.
  unfold main, TemporaryDirectory, finally, removed. step.
  change (mkWorld (clock w) (fs w) (spawned w) (trace w ++ [Print (_ ++ _)]))
    with (printed banner w).
  destruct (restart_device env (printed banner w)) as [[[|]|e1] w1]; step;
    try reflexivity.
  destruct (wait_for_device env 180 w1) as [[[|]|e2] w2]; step; try reflexivity.
  destruct (mkdtemp env w2) as [[d|e3] w3]; step; try reflexivity.
  unfold archive_of.
  destruct (collect_syslog_archive env (d ++ [lit "ios_logs.logarchive"]) 200 w3)
    as [[[|]|e4] w4]; step; try reflexivity.
  destruct (extract_guid_from_archive env (d ++ [lit "ios_logs.logarchive"]) w4)
    as [[[g|]|e5] w5]; step; try reflexivity.
  destruct (nonempty g); step; reflexivity.
Qed.

(** ** Removal of a directory tree *)

Lemma assoc_filter_out x cs :
  assoc x (filter (fun e => negb (name_eqb (fst e) x)) cs) = None.
Proof.
  induction cs as [|[name c] cs IH]; [reflexivity|].
  cbn [filter fst]. destruct (name_eqb name x) eqn:E; cbn [negb]; [exact IH|].
  cbn [assoc]. now rewrite E.
Qed.

Lemma assoc_map_remove x p cs :
  assoc x (map (fun e => if name_eqb (fst e) x then (fst e, remove (snd e) p) else e) cs)
  = option_map (fun c => remove c p) (assoc x cs).
Proof.
  induction cs as [|[name c] cs IH]; [reflexivity|].
  cbn [map fst snd assoc]. destruct (name_eqb name x) eqn:E; cbn [assoc]; rewrite E.
  - reflexivity.
  - exact IH.
Qed.

Lemma lookup_remove p : forall n, p <> [] -> lookup (remove n p) p = None.
Proof.
  induction p as [|x p IH]; intros n Hp; [congruence|].
  destruct p as [|y p].
  - destruct n as [sz|cs|]; cbn [remove lookup]; try reflexivity.
    now rewrite assoc_filter_out.
  - destruct n as [sz|cs|]; try reflexivity.
    cbn [remove]. cbn [lookup]. rewrite assoc_map_remove.
    destruct (assoc x cs) as [c|]; cbn [option_map]; [|reflexivity].
    apply (IH c). discriminate.
Qed.

Lemma lookup_app p q : forall n,
  lookup n (p ++ q) =
  match lookup n p with
  | Some m => lookup m q
  | None => None
  end.
Proof.
  induction p as [|x p IH]; intros n; [reflexivity|].
  cbn [app lookup]. destruct n as [sz|cs|]; try reflexivity.
  destruct (assoc x cs); [apply IH | reflexivity].
Qed.

Lemma mkdtemp_ok env w d w' :
  mkdtemp env w = (Ok d, w') ->
  d = tmpdir env /\ d <> []
  /\ trace w' = trace w ++ [Mkdtemp d]
  /\ mkdir (fs w) d = Some (fs w').
Proof.
  unfold mkdtemp. destruct (mkdir (fs w) (tmpdir env)) as [fs'|] eqn:E; [|discriminate].
  intros [= <- <-]. cbn [trace fs]. repeat split; auto.
  intros Hnil. rewrite Hnil in E. destruct (fs w); discriminate.
Qed.

Lemma mkdtemp_raises env w e w' :
  mkdtemp env w = (Raise e, w') -> e = OSError /\ w' = w.
Proof.
  unfold mkdtemp. destruct (mkdir (fs w) (tmpdir env)); [discriminate|].
  intros [= <- <-]. auto.
Qed.

(** The directory is gone after its removal, and so is what was under it. *)
Lemma removed_gone d w q :
  d <> [] -> lookup (fs (removed d w)) (d ++ q) = None.
Proof.
  intros Hd. unfold removed, rmtree. cbn [snd fs].
  now rewrite lookup_app, lookup_remove.
Qed.

(** ** Where a run of [main] ends *)

Lemma printed_trace m w : trace (printed m w) = trace w ++ [Print (m ++ nl)].
Proof. reflexivity. Qed.

Lemma removed_trace d w : trace (removed d w) = trace w ++ [Rmtree d].
Proof. reflexivity. Qed.

Lemma printed_fs m w : fs (printed m w) = fs w.
Proof. reflexivity. Qed.

Lemma exit_status_raise e : e = OSError -> exit_status (Raise e) = 1%Z.
Proof. now intros ->. Qed.

(** ** The exit status *)

Lemma is_guid_nonempty g : is_guid g -> nonempty (upper g) = true.
Proof.
  intros (a & b & c & d & e & -> & [Ha _] & _).
  destruct a; [discriminate | reflexivity].
Qed.

(** An identifier the extractor returns is a non-empty string, so the
    test [if guid:] of [main] holds for it. *)
Lemma extract_guid_from_archive_nonempty env archive_path w g w' :
  extract_guid_from_archive env archive_path w = (Ok (Some g), w') ->
  nonempty g = true.
Proof.
  intros H. pose proof (extract_guid_from_archive_value env archive_path w) as Hv.
  rewrite H in Hv. cbn [fst] in Hv.
  destruct (result (react env (spawned w))) as [rc out err| |];
    try destruct (rc =? 0)%Z; try discriminate.
  injection Hv as Hv. symmetry in Hv.
  apply scan_result_some in Hv
    as (before & line & after & pre & g0 & post & _ & _ & _ & (_ & Hg & _) & ->).
  now apply is_guid_nonempty.
Qed.

(** C2.  The process exits with code 0 or 1.  It exits with code 0 exactly
    when every stage succeeds in turn (the reboot trigger and the waiter
    return true, the temporary directory is made, the collector returns
    true) and the GUID extractor returns an identifier; in every other
    case, a stage that returns false or raises, or no identifier, it exits
    with code 1. *)
Theorem main_exit_code env w :
  (exit_status (fst (main env w)) = 0%Z \/ exit_status (fst (main env w)) = 1%Z)
  /\ (exit_status (fst (main env w)) = 0%Z <->
      exists w1 w2 d w3 w4 g w5,
        restart_device env (printed banner w) = (Ok true, w1)
        /\ wait_for_device env 180 w1 = (Ok true, w2)
        /\ mkdtemp env w2 = (Ok d, w3)
        /\ collect_syslog_archive env (archive_of d) 200 w3 = (Ok true, w4)
        /\ extract_guid_from_archive env (archive_of d) w4 = (Ok (Some g), w5)).
Proof.
  rewrite main_eq.
  pose proof (restart_device_runs env (printed banner w)) as [_ He1].
  destruct (restart_device env (printed banner w)) as [[[|]|e1] w1] eqn:Hr;
    cbn [fst] in *.
  2: { split; [now right|]. split; [discriminate|].
       intros (? & ? & ? & ? & ? & ? & ? & H1 & _); congruence. }
  2: { rewrite (He1 e1 eq_refl). split; [now right|]. split; [discriminate|].
       intros (? & ? & ? & ? & ? & ? & ? & H1 & _); congruence. }
  destruct (wait_for_device_runs env 180 w1) as (k & _ & He2).
  destruct (wait_for_device env 180 w1) as [[[|]|e2] w2] eqn:Hw; cbn [fst] in *.
  2: { split; [now right|]. split; [discriminate|].
       intros (? & ? & ? & ? & ? & ? & ? & H1 & H2 & _); congruence. }
  2: { rewrite (He2 e2 eq_refl). split; [now right|]. split; [discriminate|].
       intros (? & ? & ? & ? & ? & ? & ? & H1 & H2 & _); congruence. }
  destruct (mkdtemp env w2) as [[d|e3] w3] eqn:Hm; cbn [fst].
  2: { pose proof (mkdtemp_raises _ _ Hm) as [-> _].
       split; [now right|]. split; [discriminate|].
       intros (? & ? & ? & ? & ? & ? & ? & H1 & H2 & H3 & _); congruence. }
  pose proof (collect_syslog_archive_runs env (archive_of d) 200 w3) as [_ He4].
  destruct (collect_syslog_archive env (archive_of d) 200 w3) as [[[|]|e4] w4] eqn:Hc;
    cbn [fst] in *.
  2: { split; [now right|]. split; [discriminate|].
       intros (? & ? & ? & ? & ? & ? & ? & H1 & H2 & H3 & H4 & _).
       assert (x1 = d) by congruence. subst. congruence. }
  2: { rewrite (He4 e4 eq_refl). split; [now right|]. split; [discriminate|].
       intros (? & ? & ? & ? & ? & ? & ? & H1 & H2 & H3 & H4 & _).
       assert (x1 = d) by congruence. subst. congruence. }
  pose proof (extract_guid_from_archive_runs env (archive_of d) w4) as [_ He5].
  destruct (extract_guid_from_archive env (archive_of d) w4) as [[[g|]|e5] w5] eqn:Hx;
    cbn [fst] in *.
  - rewrite (extract_guid_from_archive_nonempty _ _ _ Hx). cbn [fst exit_status].
    split; [now left|]. split; [|reflexivity].
    intros _. now exists w1, w2, d, w3, w4, g, w5.
  - split; [now right|]. split; [discriminate|].
    intros (? & ? & ? & ? & ? & ? & ? & H1 & H2 & H3 & H4 & H5).
    assert (x1 = d) by congruence. subst. congruence.
  - rewrite (He5 e5 eq_refl). split; [now right|]. split; [discriminate|].
    intros (? & ? & ? & ? & ? & ? & ? & H1 & H2 & H3 & H4 & H5).
    assert (x1 = d) by congruence. subst. congruence.
Qed.

(** ** Timeouts *)

(** [main] ends with [sys.exit(0)], with [sys.exit(1)], or with an error
    of the operating system. *)
Lemma main_raises env w e :
  fst (main env w) = Raise e ->
  e = OSError \/ e = SystemExit 0 \/ e = SystemExit 1.
Proof.
  rewrite main_eq.
  pose proof (restart_device_runs env (printed banner w)) as [_ He1].
  destruct (restart_device env (printed banner w)) as [[[|]|e1] w1];
    cbn [fst] in *; [| intros [= <-]; auto | intros [= <-]; auto].
  destruct (wait_for_device_runs env 180 w1) as (k & _ & He2).
  destruct (wait_for_device env 180 w1) as [[[|]|e2] w2];
    cbn [fst] in *; [| intros [= <-]; auto | intros [= <-]; auto].
  destruct (mkdtemp env w2) as [[d|e3] w3] eqn:Hm; cbn [fst].
  2: { pose proof (mkdtemp_raises _ _ Hm) as [-> _]. intros [= <-]; auto. }
  pose proof (collect_syslog_archive_runs env (archive_of d) 200 w3) as [_ He4].
  destruct (collect_syslog_archive env (archive_of d) 200 w3) as [[[|]|e4] w4];
    cbn [fst] in *; [| intros [= <-]; auto | intros [= <-]; auto].
  pose proof (extract_guid_from_archive_runs env (archive_of d) w4) as [_ He5].
  destruct (extract_guid_from_archive env (archive_of d) w4) as [[[g|]|e5] w5];
    cbn [fst] in *; [destruct (nonempty g) | |]; cbn [fst]; intros [= <-]; auto.
Qed.

Lemma same_verdict_refl r : same_verdict r r.
Proof.
  destruct r as [c o e| |]; cbn; auto.
  destruct (Z.eq_dec c 0); auto.
Qed.

Lemma timeouts_as_failures_alike env1 env2 :
  timeouts_as_failures env1 env2 -> alike env1 env2.
Proof.
  intros [Ht Hn]. split; [exact Ht|]. intros n.
  destruct (Hn n) as (He & Hf & Hr). repeat split; auto.
  - destruct Hr as [-> | (-> & c & o & e & Hc & ->)];
      [apply same_verdict_refl | exact Hc].
  - intros t. now rewrite Hf.
Qed.

(** C6.  When a command is still running at its timeout the command runner
    returns the triple (124, "", "Timeout expired"), of the same shape as
    after a completion and with a status that is not 0, and raises nothing.
    A timeout is then treated as a non-zero exit status is: every stage
    function, and [main], returns or raises the same in a run where the
    command times out as in the run where it ends with a non-zero status
    instead.  No run of [main] ends with the timeout exception: it ends
    with [sys.exit(0)], [sys.exit(1)] or an operating-system error. *)
Theorem timeout_is_an_ordinary_failure env1 env2 w :
  timeouts_as_failures env1 env2 ->
  (forall cmd timeout,
      (result (react env1 (spawned w)) = Expired ->
       fst (run_command env1 cmd timeout w) = Ok (124%Z, [], lit "Timeout expired"))
      /\ (forall rc out err,
            result (react env1 (spawned w)) = CompletedProcess rc out err ->
            fst (run_command env1 cmd timeout w) = Ok (rc, strip out, strip err))
      /\ fst (run_command env1 cmd timeout w) <> Raise TimeoutExpired)
  /\ 124%Z <> 0%Z
  /\ fst (restart_device env1 w) = fst (restart_device env2 w)
  /\ (forall timeout,
        fst (wait_for_device env1 timeout w) = fst (wait_for_device env2 timeout w))
  /\ (forall archive_path timeout,
        fst (collect_syslog_archive env1 archive_path timeout w)
        = fst (collect_syslog_archive env2 archive_path timeout w))
  /\ (forall archive_path,
        fst (extract_guid_from_archive env1 archive_path w)
        = fst (extract_guid_from_archive env2 archive_path w))
  /\ fst (main env1 w) = fst (main env2 w)
  /\ (forall e, fst (main env1 w) = Raise e ->
                e = OSError \/ e = SystemExit 0 \/ e = SystemExit 1).
Proof.
  intros Hvar. apply timeouts_as_failures_alike in Hvar.
  split; [|split; [discriminate|]].
  - intros cmd timeout. rewrite run_command_eq.
    destruct (result (react env1 (spawned w))) as [rc out err| |]; cbn [fst];
      repeat split; try discriminate; try reflexivity.
    intros rc' out' err' [= <- <- <-]. reflexivity.
  - split; [|split; [|split; [|split; [|split]]]]; intros.
    + now apply agree_same_result, agree_restart_device.
    + now apply agree_same_result, agree_wait_for_device.
    + now apply agree_same_result, agree_collect_syslog_archive.
    + now apply agree_same_result, agree_extract_guid_from_archive.
    + now apply agree_same_result, agree_main.
    + eapply main_raises; eassumption.
Qed.

Lemma timeout_is_an_ordinary_failure_witness :
  timeouts_as_failures (ex_timeout_env Expired)
                       (ex_timeout_env (CompletedProcess 2 [] (lit "No device found")))
  /\ fst (main (ex_timeout_env Expired) ex_empty_world)
     = fst (main (ex_timeout_env (CompletedProcess 2 [] (lit "No device found")))
                 ex_empty_world).
Proof.
  assert (H : timeouts_as_failures
                (ex_timeout_env Expired)
                (ex_timeout_env (CompletedProcess 2 [] (lit "No device found")))).
  { split; [reflexivity|]. intros n. repeat split. right. split; [reflexivity|].
    exists 2%Z, [], (lit "No device found"). split; [discriminate | reflexivity]. }
  split; [exact H|].
  destruct (@timeout_is_an_ordinary_failure _ _ ex_empty_world H)
    as (_ & _ & _ & _ & _ & _ & Hmain & _).
  exact Hmain.
Defined.

(** ** End-to-end scenarios *)

(** Scenario A: the reboot dispatch fails; one command is run, exit code 1. *)
Example scenario_reboot_fails :
  let r := main (ex_stderr_env (lit "No device found")) ex_world in
  exit_status (fst r) = 1%Z /\ spawned (snd r) = 1.
Proof. vm_compute. auto. Qed.

(** Scenario B: the device never answers within 180 seconds; exit code 1
    after the reboot command and 36 presence checks of 2 s each. *)
Example scenario_never_reconnects :
  let env := mkEnv (fun n =>
                      match n with
                      | 0 => mkReaction (CompletedProcess 0 [] []) 800 (fun t => t)
                      | _ => mkReaction (CompletedProcess 1 [] []) 2000 (fun t => t)
                      end) [lit "tmp"; lit "tmpa1b2c3"] in
  let r := main env ex_world in
  exit_status (fst r) = 1%Z /\ spawned (snd r) = 37.
Proof. vm_compute. auto. Qed.

(** Scenario C: an archive of 12,000,000 bytes and a marker line with an
    identifier; exit code 0, the identifier is printed in upper case, and
    the temporary directory is gone. *)
Example scenario_guid_found :
  let r := main (ex_pipeline_env 12000000 ex_guid_line) ex_world in
  exit_status (fst r) = 0%Z
  /\ last (trace (snd r)) (Sleep 0)
     = Rmtree [lit "tmp"; lit "tmpa1b2c3"]
  /\ In (Print (success_msg (lit "1234ABCD-5678-90EF-ABCD-1234567890AB") ++ nl))
        (trace (snd r))
  /\ lookup (fs (snd r)) [lit "tmp"; lit "tmpa1b2c3"] = None.
Proof. vm_compute. intuition. Qed.

(** Scenario D: the archive has 3,000,000 bytes only; exit code 1 without
    the log query. *)
Example scenario_archive_too_small :
  let r := main (ex_pipeline_env 3000000 ex_guid_line) ex_world in
  exit_status (fst r) = 1%Z /\ spawned (snd r) = 4
  /\ lookup (fs (snd r)) [lit "tmp"; lit "tmpa1b2c3"] = None.
Proof. vm_compute. auto. Qed.

(** Scenario E: the query succeeds but no line holds the marker; exit
    code 1. *)
Example scenario_no_marker_line :
  let r := main (ex_pipeline_env 12000000 (lit "bookassetd: nothing to report")) ex_world in
  exit_status (fst r) = 1%Z /\ spawned (snd r) = 5
  /\ last (trace (snd r)) (Sleep 0) = Print (not_found_msg ++ nl).
Proof. vm_compute. auto. Qed.


(** The deadline is tested when a presence check starts, not when it
    ends: with a maximum wait of 1 second, a first check that answers
    status 0 after 5 seconds makes the waiter return true, 10 seconds
    later. *)
Example late_answer_counts :
  let env := mkEnv (fun _ => mkReaction (CompletedProcess 0 [] []) 5000 (fun t => t))
                   [lit "tmp"; lit "tmpa1b2c3"] in
  let r := wait_for_device env 1 ex_world in
  fst r = Ok true /\ clock (snd r) = (clock ex_world + 15000)%Z.
Proof. vm_compute. auto. Qed.

(** * Further properties of the stages *)

(** ** What the command runner returns *)

Lemma lstrip_spec s :
  exists p,
    s = p ++ lstrip s /\ Forall (fun c => isspace c = true) p
    /\ forall c t, lstrip s = c :: t -> isspace c = false.
Proof.
  induction s as [|c s (p & Hs & Hp & Hhead)]; cbn [lstrip].
  - exists []. repeat split; auto. discriminate.
  - destruct (isspace c) eqn:Hc.
    + exists (c :: p). cbn. rewrite <- Hs. repeat split; auto.
    + exists []. repeat split; auto. intros c' t [= <- _]. exact Hc.
Qed.

Lemma rstrip_spec s :
  exists q,
    s = rstrip s ++ q /\ Forall (fun c => isspace c = true) q
    /\ forall t c, rstrip s = t ++ [c] -> isspace c = false.
Proof.
  unfold rstrip. destruct (lstrip_spec (rev s)) as (p & Hs & Hp & Hhead).
  exists (rev p). repeat split.
  - rewrite <- rev_app_distr, <- Hs. now rewrite rev_involutive.
  - now apply Forall_rev.
  - intros t c Ht. apply (f_equal (@rev _)) in Ht.
    rewrite rev_involutive, rev_app_distr in Ht. cbn in Ht.
    eapply Hhead. exact Ht.
Qed.

Lemma strip_spec s : trimming_of s (strip s) /\ trimmed (strip s).
Proof.
  unfold strip.
  destruct (lstrip_spec s) as (p & Hs & Hp & Hhead).
  destruct (rstrip_spec (lstrip s)) as (q & Hl & Hq & Hlast).
  split.
  - exists p, q. repeat split; auto. now rewrite <- Hl.
  - split; [|exact Hlast].
    intros c t Hc. rewrite Hc in Hl. cbn in Hl. eapply Hhead. exact Hl.
Qed.

(** X1.  Whatever the command does, the two texts the command runner
    returns neither start nor end with whitespace; after a completion they
    are the captured outputs without some whitespace at their ends, and
    the return code is the command's own. *)
Theorem run_command_returns_trimmed env cmd timeout w rc out err :
  fst (run_command env cmd timeout w) = Ok (rc, out, err) ->
  trimmed out /\ trimmed err
  /\ (forall rc' raw_out raw_err,
        result (react env (spawned w)) = CompletedProcess rc' raw_out raw_err ->
        rc = rc' /\ trimming_of raw_out out /\ trimming_of raw_err err).
Proof.
  rewrite run_command_eq.
  destruct (result (react env (spawned w))) as [rc0 o0 e0| |]; cbn [fst];
    intros [= <- <- <-].
  - destruct (strip_spec o0) as [Ho Ho'], (strip_spec e0) as [He He'].
    split; [exact Ho'|]. split; [exact He'|].
    intros rc' raw_out raw_err [= <- <- <-]. auto.
  - split; [|split; [|discriminate]].
    + split; [discriminate | intros [|x t] c; discriminate].
    + split.
      * intros c t [= <- _]. reflexivity.
      * intros t c Ht.
        assert (Hl : last (t ++ [c]) 0%N = c) by apply last_last.
        rewrite <- Ht in Hl. subst c. reflexivity.
Qed.

Lemma run_command_returns_trimmed_witness :
  fst (run_command (ex_answers (CompletedProcess 0 (lit "  00008030-001A  " ++ nl) []))
                   presence_cmd (Some 10%Z) ex_world)
  = Ok (0%Z, lit "00008030-001A", [])
  /\ trimmed (lit "00008030-001A").
Proof.
  assert (H : fst (run_command
                     (ex_answers (CompletedProcess 0 (lit "  00008030-001A  " ++ nl) []))
                     presence_cmd (Some 10%Z) ex_world)
              = Ok (0%Z, lit "00008030-001A", [])) by reflexivity.
  split; [exact H|].
  exact (proj1 (@run_command_returns_trimmed _ _ _ _ _ _ _ H)).
Defined.

(** ** The reboot trigger *)

(** X2.  The reboot trigger makes a single attempt: it starts the reboot
    command once, with a timeout of 30 seconds, and neither sleeps nor
    starts anything else.  It returns true exactly when the command ends
    with status 0, false exactly when it ends with another status or is
    still running at the timeout, and raises exactly when the command
    cannot be started. *)
Theorem restart_device_single_attempt env w :
  (fst (restart_device env w) = Ok true
   <-> check_ok (result (react env (spawned w))) = true)
  /\ (fst (restart_device env w) = Ok false
      <-> check_failed (result (react env (spawned w))) = true)
  /\ (fst (restart_device env w) = Raise OSError
      <-> result (react env (spawned w)) = NotRun)
  /\ spawned (snd (restart_device env w)) = S (spawned w)
  /\ exists tr,
       trace (snd (restart_device env w)) = trace w ++ tr
       /\ filter (fun e => negb (is_print e)) tr = [Spawn reboot_cmd (Some 30%Z)].
Proof.
  unfold restart_device. step. rewrite run_command_eq.
  fold reboot_cmd. cbn [spawned].
  destruct (result (react env (spawned w))) as [rc out err| |]; step;
    [ destruct (rc =? 0)%Z eqn:Hrc; step; [|destruct (nonempty (strip err)); step]
    | change (124 =? 0)%Z with false; step;
      change (nonempty (lit "Timeout expired")) with true; step
    | ];
    cbn [fst snd after_spawn trace spawned check_ok check_failed]; rewrite ?Hrc;
    cbn [negb];
    (split; [split; congruence|]); (split; [split; congruence|]);
    (split; [split; congruence|]); (split; [reflexivity|]);
    eexists; (split; [rewrite <- !app_assoc; reflexivity | reflexivity]).
Qed.

(** ** The GUID extractor *)

Lemma is_guid_length g : is_guid g -> length g = 36.
Proof.
  intros (a & b & c & d & e & -> & [Ha _] & [Hb _] & [Hc _] & [Hd _] & [He _]).
  rewrite !length_app. cbn [length]. lia.
Qed.

Lemma extract_guid_from_archive_some env archive_path w g :
  fst (extract_guid_from_archive env archive_path w) = Ok (Some g) ->
  exists out err,
    result (react env (spawned w)) = CompletedProcess 0 out err
    /\ scan_result (splitlines (strip out)) = Some g.
Proof.
  rewrite extract_guid_from_archive_value.
  destruct (result (react env (spawned w))) as [rc out err| |];
    try discriminate.
  destruct (rc =? 0)%Z eqn:Hrc; [|discriminate].
  apply Z.eqb_eq in Hrc. subst rc. intros [= H]. eauto.
Qed.

(** X3.  An identifier the extractor returns is well formed: 36
    characters in the 8-4-4-4-12 form, written with digits, the capital
    letters A to F and hyphens only. *)
Theorem extract_guid_well_formed env archive_path w g :
  fst (extract_guid_from_archive env archive_path w) = Ok (Some g) ->
  is_guid g /\ length g = 36
  /\ Forall (fun c => In c (lit "0123456789ABCDEF-")) g.
Proof.
  intros H. apply extract_guid_from_archive_some in H as (out & err & _ & H).
  apply scan_result_some in H
    as (before & line & after & pre & g0 & post & _ & _ & _ & (_ & Hg & _) & ->).
  destruct (upper_guid Hg) as [Hu Hc].
  split; [exact Hu|]. split; [now apply is_guid_length | exact Hc].
Qed.

Lemma extract_guid_well_formed_witness :
  fst (extract_guid_from_archive (ex_answers (CompletedProcess 0 ex_guid_line []))
                                 [lit "archive"] ex_world)
  = Ok (Some (lit "1234ABCD-5678-90EF-ABCD-1234567890AB"))
  /\ is_guid (lit "1234ABCD-5678-90EF-ABCD-1234567890AB").
Proof.
  assert (H : fst (extract_guid_from_archive
                     (ex_answers (CompletedProcess 0 ex_guid_line []))
                     [lit "archive"] ex_world)
              = Ok (Some (lit "1234ABCD-5678-90EF-ABCD-1234567890AB")))
    by (vm_compute; reflexivity).
  split; [exact H|].
  exact (proj1 (@extract_guid_well_formed _ _ _ _ H)).
Defined.

Lemma occurs_in_trans a b c : occurs_in a b -> occurs_in b c -> occurs_in a c.
Proof.
  intros (p & q & ->) (p' & q' & ->). exists (p' ++ p), (q ++ q').
  now rewrite <- !app_assoc.
Qed.

Lemma splitlines_from_occurs n : forall s cur l,
  length s <= n ->
  In l (splitlines_from cur s) -> occurs_in l (rev cur ++ s).
Proof.
  induction n as [|n IH]; intros s cur l Hn.
  - destruct s; [|cbn in Hn; lia]. cbn [splitlines_from].
    destruct cur as [|x cur]; [contradiction|].
    intros [<-|[]]. exists [], []. now rewrite !app_nil_r.
  - destruct s as [|c rest]; cbn [splitlines_from].
    + destruct cur as [|x cur]; [contradiction|].
      intros [<-|[]]. exists [], []. now rewrite !app_nil_r.
    + cbn [length] in Hn. destruct (is_linebreak c).
      * intros [<-|Hin]; [now exists [], (c :: rest)|].
        destruct rest as [|c' rest']; [contradiction|].
        cbn [length] in Hn.
        destruct ((c =? 13) && (c' =? 10))%N.
        -- apply (IH rest' [] l) in Hin as (a & b & Hab); [|lia].
           cbn [rev app] in Hab. exists (rev cur ++ c :: c' :: a), b.
           rewrite Hab, <- !app_assoc. reflexivity.
        -- apply (IH (c' :: rest') [] l) in Hin as (a & b & Hab); [|cbn; lia].
           cbn [rev app] in Hab. exists (rev cur ++ c :: a), b.
           rewrite Hab, <- !app_assoc. reflexivity.
      * intros Hin. apply (IH rest (c :: cur) l) in Hin; [|lia].
        cbn [rev] in Hin. now rewrite <- app_assoc in Hin.
Qed.

(** Every line of [s.splitlines()] is a piece of [s]. *)
Lemma splitlines_occurs s l : In l (splitlines s) -> occurs_in l s.
Proof. intros H. now apply (@splitlines_from_occurs (length s) s [] l). Qed.

Lemma strip_occurs s : occurs_in (strip s) s.
Proof. destruct (strip_spec s) as [(p & q & Hs & _) _]. now exists p, q. Qed.

(** X4.  The extractor returns an identifier only from what the query
    printed: the query ended with status 0, and one line of its output
    holds both the marker and an identifier of which the result is the
    upper case; both occur in the captured standard output. *)
Theorem extract_guid_comes_from_output env archive_path w g :
  fst (extract_guid_from_archive env archive_path w) = Ok (Some g) ->
  exists out err line g0,
    result (react env (spawned w)) = CompletedProcess 0 out err
    /\ In line (splitlines (strip out))
    /\ occurs_in BLDB_FILENAME line /\ occurs_in g0 line
    /\ is_guid g0 /\ g = upper g0
    /\ occurs_in BLDB_FILENAME out /\ occurs_in g0 out.
Proof.
  intros H. apply extract_guid_from_archive_some in H as (out & err & Hres & H).
  apply scan_result_some in H
    as (before & line & after & pre & g0 & post & Hl & _ & Hm & (Hg0 & Hg & _) & ->).
  assert (Hin : In line (splitlines (strip out))).
  { rewrite Hl. apply in_or_app. right. now left. }
  assert (Hline : occurs_in line out).
  { apply occurs_in_trans with (b := strip out);
      [apply splitlines_occurs; exact Hin | apply strip_occurs]. }
  assert (Hg0' : occurs_in g0 line) by (now exists pre, post).
  exists out, err, line, g0. repeat split; auto.
  - eapply occurs_in_trans; eauto.
  - eapply occurs_in_trans; eauto.
Qed.

Lemma extract_guid_comes_from_output_witness :
  fst (extract_guid_from_archive (ex_answers (CompletedProcess 0 ex_noisy_output []))
                                 [lit "archive"] ex_world)
  = Ok (Some (lit "1234ABCD-5678-90EF-ABCD-1234567890AB"))
  /\ exists g0,
       is_guid g0 /\ lit "1234ABCD-5678-90EF-ABCD-1234567890AB" = upper g0
       /\ occurs_in g0 ex_noisy_output.
Proof.
  assert (H : fst (extract_guid_from_archive
                     (ex_answers (CompletedProcess 0 ex_noisy_output []))
                     [lit "archive"] ex_world)
              = Ok (Some (lit "1234ABCD-5678-90EF-ABCD-1234567890AB")))
    by (vm_compute; reflexivity).
  split; [exact H|].
  destruct (@extract_guid_comes_from_output _ _ _ _ H)
    as (out & err & line & g0 & Hres & _ & _ & _ & Hg & Hu & _ & Hocc).
  injection Hres as <- _. exists g0. auto.
Defined.

Lemma scan_result_filter lines :
  scan_result lines = scan_result (filter (contains BLDB_FILENAME) lines).
Proof.
  induction lines as [|l rest IH]; [reflexivity|].
  cbn [scan_result filter]. destruct (contains BLDB_FILENAME l) eqn:Hc.
  - cbn [scan_result]. rewrite Hc, IH. reflexivity.
  - exact IH.
Qed.

(** X5.  Only the lines that hold the marker count: two queries that end
    with status 0 and whose outputs have the same marker lines, in the same
    order, give the same result, whatever their other lines are. *)
Theorem extract_guid_reads_marker_lines_only
    env1 env2 path1 path2 w1 w2 out1 err1 out2 err2 :
  result (react env1 (spawned w1)) = CompletedProcess 0 out1 err1 ->
  result (react env2 (spawned w2)) = CompletedProcess 0 out2 err2 ->
  filter (contains BLDB_FILENAME) (splitlines (strip out1))
  = filter (contains BLDB_FILENAME) (splitlines (strip out2)) ->
  fst (extract_guid_from_archive env1 path1 w1)
  = fst (extract_guid_from_archive env2 path2 w2).
Proof.
  intros H1 H2 Hlines. rewrite !extract_guid_from_archive_value, H1, H2.
  cbn [Z.eqb]. f_equal.
  rewrite (scan_result_filter (splitlines (strip out1))), Hlines.
  symmetry. apply scan_result_filter.
Qed.

Lemma extract_guid_reads_marker_lines_only_witness :
  fst (extract_guid_from_archive (ex_answers (CompletedProcess 0 ex_noisy_output []))
                                 [lit "a"] ex_empty_world)
  = fst (extract_guid_from_archive (ex_answers (CompletedProcess 0 ex_guid_line []))
                                   [lit "b"] ex_world).
Proof.
  apply (@extract_guid_reads_marker_lines_only
           (ex_answers (CompletedProcess 0 ex_noisy_output []))
           (ex_answers (CompletedProcess 0 ex_guid_line []))
           [lit "a"] [lit "b"] ex_empty_world ex_world
           ex_noisy_output [] ex_guid_line []); reflexivity.
Defined.

(** X6.  When the log query ends with a non-zero status or is still
    running at its timeout of 60 seconds, the extractor returns no
    identifier without reading the output: whatever was printed, marker
    lines included, all it does after the command is to print the status
    (124 for a timeout). *)
Theorem extract_guid_fails_without_scanning env archive_path w :
  check_failed (result (react env (spawned w))) = true ->
  fst (extract_guid_from_archive env archive_path w) = Ok None
  /\ trace (snd (extract_guid_from_archive env archive_path w))
     = trace w
       ++ [Print (lit "[+] Searching for GUID in archive using log show..." ++ nl);
           Spawn (log_show_cmd archive_path) (Some 60%Z);
           Print (lit "[-] log show exited with error "
                  ++ str_of_Z (reported_code (result (react env (spawned w)))) ++ nl)].
Proof.
  intros Hf. unfold extract_guid_from_archive. step. rewrite run_command_eq.
  fold (log_show_cmd archive_path). cbn [spawned].
  destruct (result (react env (spawned w))) as [rc out err| |];
    cbn [check_failed reported_code] in *; [| |discriminate]; step.
  - apply negb_true_iff in Hf. rewrite Hf. step.
    cbn [fst snd after_spawn trace]. split; [reflexivity|].
    now rewrite <- !app_assoc.
  - change (124 =? 0)%Z with false. step.
    cbn [fst snd after_spawn trace]. split; [reflexivity|].
    now rewrite <- !app_assoc.
Qed.

Lemma extract_guid_fails_without_scanning_witness :
  check_failed (result (react ex_query_fails_env (spawned ex_world))) = true
  /\ fst (extract_guid_from_archive ex_query_fails_env [lit "archive"] ex_world) = Ok None.
Proof.
  split; [reflexivity|].
  exact (proj1 (@extract_guid_fails_without_scanning
                  ex_query_fails_env [lit "archive"] ex_world eq_refl)).
Defined.

(** ** The reconnection waiter *)

Lemma check_count_bound m t :
  (3 * Z.of_nat m < t)%Z -> S m <= Z.to_nat ((t + 2) / 3).
Proof.
  intros H.
  assert (Z.of_nat (S m) <= (t + 2) / 3)%Z by (apply Z.div_le_lower_bound; lia).
  lia.
Qed.

(** X7.  The waiter makes at most one presence check per 3 seconds of its
    maximum wait, rounded up (60 checks for 180 seconds), and, when the
    maximum wait is positive, at least one. *)
Theorem wait_for_device_check_count env timeout w :
  (spawned (snd (wait_for_device env timeout w))
   <= spawned w + Z.to_nat ((timeout + 2) / 3))
  /\ ((0 < timeout)%Z -> S (spawned w) <= spawned (snd (wait_for_device env timeout w))).
Proof.
  rewrite wait_for_device_eq.
  set (w0 := snd (print_end waiting_msg [] w)).
  assert (Hs0 : spawned w0 = spawned w) by reflexivity.
  assert (Hc0 : clock w0 = clock w) by reflexivity.
  destruct (wait_loop_run env (clock w) timeout w0)
    as (n & Hfail & [(Hout & ->) | [(Hin & _ & ->) | (Hin & _ & ->)]]);
    cbn [snd printed print print_end emit settled advance after_spawn spawned];
    rewrite retries_spawned, Hs0.
  - split.
    + destruct n as [|m]; [lia|].
      destruct (Hfail m (Nat.lt_succ_diag_r m)) as [Hm _].
      pose proof (check_start_lower_bound env w0 m).
      apply Nat.add_le_mono_l, check_count_bound. unfold seconds in *. lia.
    + intros Hpos. destruct n as [|m]; [|lia].
      exfalso. apply Hout.
      replace (check_start env w0 0) with (clock w)
        by (unfold check_start; cbn [seq map fold_right]; rewrite Hc0; lia).
      unfold seconds. lia.
  - pose proof (check_start_lower_bound env w0 n).
    split; [|lia]. rewrite <- Nat.add_succ_r.
    apply Nat.add_le_mono_l, check_count_bound. unfold in_time, seconds in *. lia.
  - pose proof (check_start_lower_bound env w0 n).
    split; [|lia]. rewrite <- Nat.add_succ_r.
    apply Nat.add_le_mono_l, check_count_bound. unfold in_time, seconds in *. lia.
Qed.

(** X9.  A longer maximum wait never loses the device: if the waiter
    returns true for one maximum wait, then for every longer one it returns
    true as well, after the same checks and in the same world. *)
Theorem wait_for_device_longer_wait env timeout timeout' w :
  fst (wait_for_device env timeout w) = Ok true ->
  (timeout <= timeout')%Z ->
  wait_for_device env timeout' w = wait_for_device env timeout w.
Proof.
  rewrite !wait_for_device_eq.
  set (w0 := snd (print_end waiting_msg [] w)).
  intros Htrue Hle.
  destruct (wait_loop_run env (clock w) timeout w0)
    as (n & Hfail & [(_ & H) | [(Hin & Hok & H) | (_ & _ & H)]]);
    rewrite H in Htrue; try discriminate. rewrite H. clear Htrue H.
  destruct (wait_loop_run env (clock w) timeout' w0) as (n' & Hfail' & Hend').
  assert (Hn : n' = n).
  { destruct (Nat.lt_trichotomy n' n) as [Hlt | [Heq | Hgt]]; [|exact Heq|].
    - exfalso. destruct (Hfail n' Hlt) as [Hin' Hf'].
      destruct Hend' as [(Hout & _) | [(_ & Hok' & _) | (_ & Hnot & _)]].
      + apply Hout. unfold seconds in *. lia.
      + apply check_ok_not_failed in Hok'. congruence.
      + rewrite Hnot in Hf'. discriminate.
    - exfalso. destruct (Hfail' n Hgt) as [_ Hf].
      apply check_ok_not_failed in Hok. congruence. }
  subst n'.
  destruct Hend' as [(Hout & _) | [(_ & _ & H') | (_ & Hnot & _)]].
  - exfalso. apply Hout. unfold seconds in *. lia.
  - exact H'.
  - rewrite Hnot in Hok. discriminate.
Qed.

Lemma wait_for_device_longer_wait_witness :
  fst (wait_for_device (ex_answers_at 2) 30 ex_world) = Ok true
  /\ (30 <= 180)%Z
  /\ wait_for_device (ex_answers_at 2) 180 ex_world
     = wait_for_device (ex_answers_at 2) 30 ex_world.
Proof.
  assert (H : fst (wait_for_device (ex_answers_at 2) 30 ex_world) = Ok true)
    by (vm_compute; reflexivity).
  split; [exact H|]. split; [lia|].
  apply (@wait_for_device_longer_wait (ex_answers_at 2) 30 180 ex_world H). lia.
Defined.

(** ** The temporary directory and the collector *)

Lemma name_eqb_refl x : name_eqb x x = true.
Proof. unfold name_eqb. destruct (list_eq_dec N.eq_dec x x); congruence. Qed.

Lemma assoc_put_same x c cs : assoc x (put x c cs) = Some c.
Proof.
  induction cs as [|[name d] cs IH]; cbn [put assoc].
  - now rewrite name_eqb_refl.
  - destruct (name_eqb name x) eqn:E; cbn [assoc]; rewrite E; [reflexivity | exact IH].
Qed.

(** A directory just made is there, and empty. *)
Lemma lookup_mkdir p : forall n n',
  mkdir n p = Some n' -> lookup n' p = Some (Dir []).
Proof.
  induction p as [|x p IH]; intros n n'; [destruct n; discriminate|].
  destruct n as [sz|cs|]; try (destruct p; cbn [mkdir]; discriminate).
  destruct p as [|y p].
  - cbn [mkdir]. destruct (assoc x cs); [discriminate|].
    intros [= <-]. cbn [lookup]. now rewrite assoc_put_same.
  - change (mkdir (Dir cs) (x :: y :: p))
      with (match assoc x cs with
            | Some c =>
                match mkdir c (y :: p) with
                | Some c' => Some (Dir (put x c' cs))
                | None => None
                end
            | None => None
            end).
    destruct (assoc x cs) as [c|]; [|discriminate].
    destruct (mkdir c (y :: p)) as [c'|] eqn:Hc; [|discriminate].
    intros [= <-]. cbn [lookup]. rewrite assoc_put_same.
    now apply (IH c c').
Qed.

(** X10.  The temporary directory is empty when the collector starts, so
    a collection command that ends, with status 0 or any other or at its
    timeout, without having written anything makes the collector return
    false. *)
Theorem collect_fails_when_nothing_written env w0 d w timeout :
  mkdtemp env w0 = (Ok d, w) ->
  result (react env (spawned w)) <> NotRun ->
  effect (react env (spawned w)) (fs w) = fs w ->
  lookup (fs w) d = Some (Dir [])
  /\ lookup (fs w) (archive_of d) = None
  /\ fst (collect_syslog_archive env (archive_of d) timeout w) = Ok false.
Proof.
  intros Hm Hrun Heff.
  pose proof (mkdtemp_ok _ _ Hm) as (_ & _ & _ & Hmk).
  apply lookup_mkdir in Hmk.
  assert (Ha : lookup (fs w) (archive_of d) = None).
  { unfold archive_of. now rewrite lookup_app, Hmk. }
  split; [exact Hmk|]. split; [exact Ha|].
  rewrite collect_syslog_archive_value, Heff, Ha.
  destruct (result (react env (spawned w))); congruence.
Qed.

Lemma collect_fails_when_nothing_written_witness :
  fst (collect_syslog_archive (ex_answers (CompletedProcess 0 [] []))
         (archive_of [lit "tmp"; lit "tmpa1b2c3"]) 200
         (snd (mkdtemp (ex_answers (CompletedProcess 0 [] [])) ex_world)))
  = Ok false.
Proof.
  refine (proj2 (proj2 (@collect_fails_when_nothing_written
            (ex_answers (CompletedProcess 0 [] [])) ex_world
            [lit "tmp"; lit "tmpa1b2c3"]
            (snd (mkdtemp (ex_answers (CompletedProcess 0 [] [])) ex_world))
            200 _ _ _))).
  - reflexivity.
  - discriminate.
  - reflexivity.
Defined.

(** ** What a successful run prints *)

(** X11.  A run that exits with code 0 has printed, as its last message,
    the success line with an identifier of the 8-4-4-4-12 form in upper
    case, and has removed the temporary directory right after. *)
Theorem main_success_prints_guid env w :
  exit_status (fst (main env w)) = 0%Z ->
  exists g tr,
    trace (snd (main env w))
    = tr ++ [Print (success_msg g ++ nl); Rmtree (tmpdir env)]
    /\ is_guid g
    /\ Forall (fun c => In c (lit "0123456789ABCDEF-")) g.
Proof.
  rewrite main_eq.
  pose proof (restart_device_runs env (printed banner w)) as [_ He1].
  destruct (restart_device env (printed banner w)) as [[[|]|e1] w1];
    cbn [fst] in *; [| discriminate | rewrite (He1 e1 eq_refl); discriminate].
  destruct (wait_for_device_runs env 180 w1) as (k & _ & He2).
  destruct (wait_for_device env 180 w1) as [[[|]|e2] w2];
    cbn [fst] in *; [| discriminate | rewrite (He2 e2 eq_refl); discriminate].
  destruct (mkdtemp env w2) as [[d|e3] w3] eqn:Hm; cbn [fst].
  2: { pose proof (mkdtemp_raises _ _ Hm) as [-> _]. discriminate. }
  pose proof (mkdtemp_ok _ _ Hm) as (-> & _).
  pose proof (collect_syslog_archive_runs env (archive_of (tmpdir env)) 200 w3) as [_ He4].
  destruct (collect_syslog_archive env (archive_of (tmpdir env)) 200 w3)
    as [[[|]|e4] w4]; cbn [fst] in *;
    [| discriminate | rewrite (He4 e4 eq_refl); discriminate].
  pose proof (extract_guid_from_archive_runs env (archive_of (tmpdir env)) w4) as [_ He5].
  destruct (extract_guid_from_archive env (archive_of (tmpdir env)) w4)
    as [[[g|]|e5] w5] eqn:Hx; cbn [fst] in *;
    [| discriminate | rewrite (He5 e5 eq_refl); discriminate].
  assert (Hg : fst (extract_guid_from_archive env (archive_of (tmpdir env)) w4)
               = Ok (Some g)) by now rewrite Hx.
  apply extract_guid_from_archive_some in Hg as (out & err & _ & Hg).
  apply scan_result_some in Hg
    as (before & line & after & pre & g0 & post & _ & _ & _ & (_ & Hg0 & _) & ->).
  rewrite (is_guid_nonempty Hg0). cbn [fst snd exit_status]. intros _.
  destruct (upper_guid Hg0) as [Hu Hc].
  exists (upper g0), (trace w5). split; [|split; assumption].
  rewrite removed_trace, printed_trace, <- app_assoc. reflexivity.
Qed.

Lemma main_success_prints_guid_witness :
  exit_status (fst (main (ex_pipeline_env 12000000 ex_guid_line) ex_world)) = 0%Z
  /\ exists g tr,
       trace (snd (main (ex_pipeline_env 12000000 ex_guid_line) ex_world))
       = tr ++ [Print (success_msg g ++ nl);
                Rmtree (tmpdir (ex_pipeline_env 12000000 ex_guid_line))]
       /\ is_guid g
       /\ Forall (fun c => In c (lit "0123456789ABCDEF-")) g.
Proof.
  assert (H : exit_status (fst (main (ex_pipeline_env 12000000 ex_guid_line) ex_world))
              = 0%Z) by (vm_compute; reflexivity).
  split; [exact H|].
  exact (@main_success_prints_guid (ex_pipeline_env 12000000 ex_guid_line) ex_world H).
Defined.

(** * The run of [main], stage by stage *)

(** ** The checks of the waiter *)

Lemma wait_for_device_checks env timeout w :
  exists k,
    stage_runs (wait_for_device env timeout) w (repeat (Spawn presence_cmd (Some 10%Z)) k)
    /\ spawned (snd (wait_for_device env timeout w)) = spawned w + k
    /\ ((0 < timeout)%Z -> 1 <= k).
Proof.
  unfold stage_runs. rewrite wait_for_device_eq.
  set (w0 := snd (print_end waiting_msg [] w)).
  assert (Hs0 : spawned w0 = spawned w) by reflexivity.
  assert (Hc0 : clock w0 = clock w) by reflexivity.
  destruct (wait_loop_run env (clock w) timeout w0)
    as (n & _ & [(Hout & ->) | [(_ & _ & ->) | (_ & _ & ->)]]);
    [exists n | exists (S n) | exists (S n)];
    (split; [split; [|intros e [=]; congruence] |]); cbn [snd].
  1, 3, 5:
    unfold printed, settled, advance, after_spawn; cbn [snd print print_end emit trace];
    rewrite retries_trace; subst w0; cbn [snd print_end emit trace];
    eexists; (split; [rewrite <- !app_assoc; reflexivity|]);
    rewrite !steps_app, steps_retries; cbn [steps filter is_step negb app];
    rewrite ?app_nil_r; try reflexivity; cbn [repeat]; now rewrite repeat_cons.
  - cbn [printed print print_end emit snd spawned]. rewrite retries_spawned, Hs0.
    split; [reflexivity|]. intros Hpos. destruct n as [|m]; [|lia].
    exfalso. apply Hout.
    replace (check_start env w0 0) with (clock w)
      by (unfold check_start; cbn [seq map fold_right]; rewrite Hc0; lia).
    unfold seconds. lia.
  - cbn [settled advance after_spawn spawned]. rewrite retries_spawned, Hs0.
    split; lia.
  - cbn [after_spawn spawned]. rewrite retries_spawned, Hs0. split; lia.
Qed.

(** ** Where a run ends *)

Lemma main_run env w :
  exists tr k tail,
    trace (snd (main env w)) = trace w ++ tr
    /\ steps tr
       = Spawn reboot_cmd (Some 30%Z)
         :: repeat (Spawn presence_cmd (Some 10%Z)) k ++ tail
    /\ ending env w k tail.
Proof.
  pose proof (main_eq env w) as Hmain.
  destruct (restart_device_runs env (printed banner w)) as [(tr1 & Ht1 & Hs1) He1].
  rewrite printed_trace in Ht1.
  destruct (restart_device env (printed banner w)) as [[[|]|e1] w1] eqn:Hr;
    cbn [fst snd] in *.
  2: { exists ([Print (banner ++ nl)] ++ tr1), 0, []. rewrite Hmain. cbn [snd fst].
       split; [now rewrite Ht1, <- app_assoc|].
       split; [rewrite steps_app, Hs1; reflexivity|].
       apply ends_at_reboot; [rewrite Hr; discriminate | now rewrite Hmain]. }
  2: { exists ([Print (banner ++ nl)] ++ tr1), 0, []. rewrite Hmain. cbn [snd fst].
       split; [now rewrite Ht1, <- app_assoc|].
       split; [rewrite steps_app, Hs1; reflexivity|].
       apply ends_at_reboot; [rewrite Hr; discriminate|].
       rewrite Hmain. apply exit_status_raise. now apply He1. }
  destruct (wait_for_device_checks env 180 w1)
    as (k & [(tr2 & Ht2 & Hs2) He2] & Hsp & Hk).
  assert (Hchecks : checks_made env w1 k) by (split; [exact Hsp | apply Hk; lia]).
  clear Hsp Hk.
  destruct (wait_for_device env 180 w1) as [[[|]|e2] w2] eqn:Hw; cbn [fst snd] in *.
  2: { exists ([Print (banner ++ nl)] ++ tr1 ++ tr2), k, []. rewrite Hmain. cbn [snd fst].
       split; [now rewrite Ht2, Ht1, <- !app_assoc|].
       split; [rewrite !steps_app, Hs1, Hs2, app_nil_r; reflexivity|].
       eapply ends_at_wait;
         [exact Hr | exact Hchecks | rewrite Hw; discriminate | now rewrite Hmain]. }
  2: { exists ([Print (banner ++ nl)] ++ tr1 ++ tr2), k, []. rewrite Hmain. cbn [snd fst].
       split; [now rewrite Ht2, Ht1, <- !app_assoc|].
       split; [rewrite !steps_app, Hs1, Hs2, app_nil_r; reflexivity|].
       eapply ends_at_wait; [exact Hr | exact Hchecks | rewrite Hw; discriminate|].
       rewrite Hmain. apply exit_status_raise. now apply He2. }
  destruct (mkdtemp env w2) as [[d|e3] w3] eqn:Hm.
  2: { apply mkdtemp_raises in Hm as Hm'. destruct Hm' as [-> ->].
       exists ([Print (banner ++ nl)] ++ tr1 ++ tr2), k, []. rewrite Hmain. cbn [snd fst].
       split; [now rewrite Ht2, Ht1, <- !app_assoc|].
       split; [rewrite !steps_app, Hs1, Hs2, app_nil_r; reflexivity|].
       eapply ends_at_mkdtemp;
         [exact Hr | exact Hchecks | exact Hw | exact Hm | now rewrite Hmain]. }
  apply mkdtemp_ok in Hm as Hm'. destruct Hm' as (_ & Hd & Ht3 & Hmk).
  apply lookup_mkdir in Hmk.
  destruct (collect_syslog_archive_runs env (archive_of d) 200 w3)
    as [(tr4 & Ht4 & Hs4) He4].
  change (200 + 30)%Z with 230%Z in Hs4.
  destruct (collect_syslog_archive env (archive_of d) 200 w3) as [[[|]|e4] w4] eqn:Hc;
    cbn [fst snd] in *.
  2: { exists ([Print (banner ++ nl)] ++ tr1 ++ tr2 ++ [Mkdtemp d] ++ tr4
               ++ [Print (failed_msg ++ nl); Rmtree d]), k.
       eexists. rewrite Hmain. cbn [snd fst].
       split; [rewrite removed_trace, printed_trace, Ht4, Ht3, Ht2, Ht1, <- !app_assoc;
               reflexivity|].
       split; [rewrite !steps_app, Hs1, Hs2, Hs4; reflexivity|].
       eapply ends_at_collect;
         [exact Hr | exact Hchecks | exact Hw | exact Hm | exact Hmk
         | rewrite Hc; discriminate | now rewrite Hmain |].
       intros q. rewrite Hmain. cbn [snd]. now apply removed_gone. }
  2: { exists ([Print (banner ++ nl)] ++ tr1 ++ tr2 ++ [Mkdtemp d] ++ tr4 ++ [Rmtree d]), k.
       eexists. rewrite Hmain. cbn [snd fst].
       split; [rewrite removed_trace, Ht4, Ht3, Ht2, Ht1, <- !app_assoc; reflexivity|].
       split; [rewrite !steps_app, Hs1, Hs2, Hs4; reflexivity|].
       eapply ends_at_collect;
         [exact Hr | exact Hchecks | exact Hw | exact Hm | exact Hmk
         | rewrite Hc; discriminate | | ].
       - rewrite Hmain. apply exit_status_raise. now apply He4.
       - intros q. rewrite Hmain. cbn [snd]. now apply removed_gone. }
  destruct (extract_guid_from_archive_runs env (archive_of d) w4)
    as [(tr5 & Ht5 & Hs5) He5].
  assert (Hsteps : forall last,
    steps last = [Rmtree d] ->
    steps ([Print (banner ++ nl)] ++ tr1 ++ tr2 ++ [Mkdtemp d] ++ tr4 ++ tr5 ++ last)
    = Spawn reboot_cmd (Some 30%Z)
      :: repeat (Spawn presence_cmd (Some 10%Z)) k
         ++ [Mkdtemp d; Spawn (collect_cmd (archive_of d)) (Some 230%Z);
             Spawn (log_show_cmd (archive_of d)) (Some 60%Z); Rmtree d]).
  { intros last Hl. rewrite !steps_app, Hs1, Hs2, Hs4, Hs5, Hl. reflexivity. }
  destruct (extract_guid_from_archive env (archive_of d) w4) as [[[g|]|e5] w5] eqn:Hx;
    cbn [fst snd] in *.
  - rewrite (extract_guid_from_archive_nonempty _ _ _ Hx) in Hmain.
    exists ([Print (banner ++ nl)] ++ tr1 ++ tr2 ++ [Mkdtemp d] ++ tr4 ++ tr5
            ++ [Print (success_msg g ++ nl); Rmtree d]), k.
    eexists. rewrite Hmain. cbn [snd fst].
    split; [rewrite removed_trace, printed_trace, Ht5, Ht4, Ht3, Ht2, Ht1, <- !app_assoc;
            reflexivity|].
    split; [now apply Hsteps|].
    eapply ends_at_extract;
      [exact Hr | exact Hchecks | exact Hw | exact Hm | exact Hmk | exact Hc | | |].
    + intros g' _. now rewrite Hmain.
    + intros Hno. exfalso. apply (Hno g). now rewrite Hx.
    + intros q. rewrite Hmain. cbn [snd]. now apply removed_gone.
  - exists ([Print (banner ++ nl)] ++ tr1 ++ tr2 ++ [Mkdtemp d] ++ tr4 ++ tr5
            ++ [Rmtree d; Print (not_found_msg ++ nl)]), k.
    eexists. rewrite Hmain. cbn [snd fst].
    split; [rewrite printed_trace, removed_trace, Ht5, Ht4, Ht3, Ht2, Ht1, <- !app_assoc;
            reflexivity|].
    split; [now apply Hsteps|].
    eapply ends_at_extract;
      [exact Hr | exact Hchecks | exact Hw | exact Hm | exact Hmk | exact Hc | | |].
    + intros g'. rewrite Hx. discriminate.
    + intros _. now rewrite Hmain.
    + intros q. rewrite Hmain. cbn [snd]. rewrite printed_fs. now apply removed_gone.
  - exists ([Print (banner ++ nl)] ++ tr1 ++ tr2 ++ [Mkdtemp d] ++ tr4 ++ tr5
            ++ [Rmtree d]), k.
    eexists. rewrite Hmain. cbn [snd fst].
    split; [rewrite removed_trace, Ht5, Ht4, Ht3, Ht2, Ht1, <- !app_assoc;
            reflexivity|].
    split; [now apply Hsteps|].
    eapply ends_at_extract;
      [exact Hr | exact Hchecks | exact Hw | exact Hm | exact Hmk | exact Hc | | |].
    + intros g'. rewrite Hx. discriminate.
    + intros _. rewrite Hmain. apply exit_status_raise. now apply He5.
    + intros q. rewrite Hmain. cbn [snd]. now apply removed_gone.
Qed.

(** ** The order of the stages *)

(** Closes a case in which two accounts of the same stage disagree. *)
Ltac clash :=
  repeat match goal with
         | H : ?x = (_, _), H' : context [fst ?x] |- _ => rewrite H in H'
         end;
  cbn [fst] in *; congruence.

(** Two accounts of the same stage give the same world. *)
Ltac same_stage :=
  repeat match goal with
         | H : ?x = (Ok _, ?a), H' : ?x = (Ok _, ?b) |- _ =>
             assert (a = b) by congruence; subst b; clear H'
         end.

(** C7.  The steps of a run of [main] are the reboot command, then the
    presence checks of the waiter, then, inside the temporary directory,
    the collection command and last the log query: the four stages run in
    the order Reboot, Wait, Collect, Extract, and each stage that returns
    true is followed by the next one.  After a reboot trigger that returns
    true the waiter makes its presence checks, at least one; after a
    waiter that returns true (and the temporary directory made) the
    collection command is run; after a collector that returns true the log
    query is run, and the exit code is 0 exactly when the extractor returns
    an identifier.  A stage that does not return true ends the run with
    exit code 1 before any later stage starts: after a failed reboot
    dispatch no presence check, no collection and no query is made; after
    a failed wait no collection and no query; after a failed collection no
    query. *)
Theorem main_stage_order env w :
  exists tr k tail,
    trace (snd (main env w)) = trace w ++ tr
    /\ steps tr
       = Spawn reboot_cmd (Some 30%Z)
         :: repeat (Spawn presence_cmd (Some 10%Z)) k ++ tail
    /\ (tail = []
        \/ tail = [Mkdtemp (tmpdir env);
                   Spawn (collect_cmd (archive_of (tmpdir env))) (Some 230%Z);
                   Rmtree (tmpdir env)]
        \/ tail = [Mkdtemp (tmpdir env);
                   Spawn (collect_cmd (archive_of (tmpdir env))) (Some 230%Z);
                   Spawn (log_show_cmd (archive_of (tmpdir env))) (Some 60%Z);
                   Rmtree (tmpdir env)])
    /\ (fst (restart_device env (printed banner w)) <> Ok true ->
        k = 0 /\ tail = [] /\ exit_status (fst (main env w)) = 1%Z)
    /\ (forall w1,
          restart_device env (printed banner w) = (Ok true, w1) ->
          checks_made env w1 k
          /\ (fst (wait_for_device env 180 w1) <> Ok true ->
              tail = [] /\ exit_status (fst (main env w)) = 1%Z))
    /\ (forall w1 w2,
          restart_device env (printed banner w) = (Ok true, w1) ->
          wait_for_device env 180 w1 = (Ok true, w2) ->
          (fst (mkdtemp env w2) = Raise OSError ->
           tail = [] /\ exit_status (fst (main env w)) = 1%Z)
          /\ forall d w3,
               mkdtemp env w2 = (Ok d, w3) ->
               d = tmpdir env
               /\ (exists rest,
                     tail = Mkdtemp d
                            :: Spawn (collect_cmd (archive_of d)) (Some 230%Z) :: rest)
               /\ (fst (collect_syslog_archive env (archive_of d) 200 w3) <> Ok true ->
                   tail = [Mkdtemp d; Spawn (collect_cmd (archive_of d)) (Some 230%Z);
                           Rmtree d]
                   /\ exit_status (fst (main env w)) = 1%Z)
               /\ forall w4,
                    collect_syslog_archive env (archive_of d) 200 w3 = (Ok true, w4) ->
                    tail = [Mkdtemp d; Spawn (collect_cmd (archive_of d)) (Some 230%Z);
                            Spawn (log_show_cmd (archive_of d)) (Some 60%Z); Rmtree d]
                    /\ (forall g,
                          fst (extract_guid_from_archive env (archive_of d) w4)
                          = Ok (Some g) ->
                          exit_status (fst (main env w)) = 0%Z)
                    /\ ((forall g,
                           fst (extract_guid_from_archive env (archive_of d) w4)
                           <> Ok (Some g)) ->
                        exit_status (fst (main env w)) = 1%Z)).
Proof.
  destruct (main_run env w) as (tr & k & tail & Htr & Hst & Hend).
  exists tr, k, tail. split; [exact Htr|]. split; [exact Hst|].
  destruct Hend as [Hr Hx | w1 k Hr Hk Hw Hx | w1 w2 k Hr Hk Hw Hm Hx
                   | w1 w2 d w3 k Hr Hk Hw Hm Hnew Hc Hx Hgone
                   | w1 w2 d w3 w4 k Hr Hk Hw Hm Hnew Hc Hx0 Hx1 Hgone].
  - (* the reboot trigger does not return true *)
    split; [now left|]. split; [auto|]. split.
    + intros v1 Hr'. clash.
    + intros v1 v2 Hr'. clash.
  - (* the waiter does not return true *)
    split; [now left|]. split; [intros Hr'; clash|]. split.
    + intros v1 Hr'. same_stage. auto.
    + intros v1 v2 Hr' Hw'. same_stage. clash.
  - (* the temporary directory cannot be made *)
    split; [now left|]. split; [intros Hr'; clash|]. split.
    + intros v1 Hr'. same_stage. split; [exact Hk | intros Hw'; clash].
    + intros v1 v2 Hr' Hw'. same_stage. split; [auto|].
      intros d v3 Hm'. congruence.
  - (* the collector does not return true *)
    pose proof (mkdtemp_ok _ _ Hm) as (Hd & _).
    split; [right; left; now rewrite Hd|]. split; [intros Hr'; clash|]. split.
    + intros v1 Hr'. same_stage. split; [exact Hk | intros Hw'; clash].
    + intros v1 v2 Hr' Hw'. same_stage. split; [intros Hm'; clash|].
      intros d' v3 Hm'. assert (d' = d /\ v3 = w3) as [-> ->] by (split; congruence).
      split; [exact Hd|]. split; [eauto|]. split; [auto|].
      intros v4 Hc'. clash.
  - (* the collector returns true *)
    pose proof (mkdtemp_ok _ _ Hm) as (Hd & _).
    split; [right; right; now rewrite Hd|]. split; [intros Hr'; clash|]. split.
    + intros v1 Hr'. same_stage. split; [exact Hk | intros Hw'; clash].
    + intros v1 v2 Hr' Hw'. same_stage. split; [intros Hm'; clash|].
      intros d' v3 Hm'. assert (d' = d /\ v3 = w3) as [-> ->] by (split; congruence).
      split; [exact Hd|]. split; [eauto|]. split; [intros Hc'; clash|].
      intros v4 Hc'. same_stage. auto.
Qed.

(** ** The temporary directory *)

(** C8.  The temporary directory is a scope: whatever its body does and
    however the body ends, with a value or with any exception, the
    directory is removed last, and neither it nor anything under it is left
    in the filesystem.  In [main] the archive path handed to the
    collection command and to the log query is inside that directory, and
    both are run between the making of the directory and its removal, which
    is the last step of the run.  Every run that reaches the collection
    stage (the reboot trigger and the waiter returned true and the
    directory was made, empty) ends, however the collector and the
    extractor end (an identifier found, a failed collection, no identifier,
    an exception), in a filesystem that has neither the directory nor the
    archive; a run that does not reach it makes no directory. *)
Theorem archive_directory_removed env w :
  (forall (A : Type) (body : Path -> M A) w0 d w3,
      mkdtemp env w0 = (Ok d, w3) ->
      fst (TemporaryDirectory env body w0) = fst (body d w3)
      /\ trace (snd (TemporaryDirectory env body w0))
         = trace (snd (body d w3)) ++ [Rmtree d]
      /\ forall q, lookup (fs (snd (TemporaryDirectory env body w0))) (d ++ q) = None)
  /\ exists tr k tail,
       trace (snd (main env w)) = trace w ++ tr
       /\ steps tr
          = Spawn reboot_cmd (Some 30%Z)
            :: repeat (Spawn presence_cmd (Some 10%Z)) k ++ tail
       /\ (tail = []
           \/ tail = [Mkdtemp (tmpdir env);
                      Spawn (collect_cmd (archive_of (tmpdir env))) (Some 230%Z);
                      Rmtree (tmpdir env)]
           \/ tail = [Mkdtemp (tmpdir env);
                      Spawn (collect_cmd (archive_of (tmpdir env))) (Some 230%Z);
                      Spawn (log_show_cmd (archive_of (tmpdir env))) (Some 60%Z);
                      Rmtree (tmpdir env)])
       /\ (tail <> [] ->
           lookup (fs (snd (main env w))) (tmpdir env) = None
           /\ lookup (fs (snd (main env w))) (archive_of (tmpdir env)) = None
           /\ forall q, lookup (fs (snd (main env w))) (tmpdir env ++ q) = None)
       /\ (forall w1 w2 d w3,
             restart_device env (printed banner w) = (Ok true, w1) ->
             wait_for_device env 180 w1 = (Ok true, w2) ->
             mkdtemp env w2 = (Ok d, w3) ->
             d = tmpdir env
             /\ lookup (fs w3) d = Some (Dir [])
             /\ (exists rest,
                   tail = Mkdtemp d
                          :: Spawn (collect_cmd (archive_of d)) (Some 230%Z) :: rest
                   /\ last rest (Rmtree []) = Rmtree d)
             /\ lookup (fs (snd (main env w))) d = None
             /\ lookup (fs (snd (main env w))) (archive_of d) = None).
Proof.
  split.
  - intros A body w0 d w3 Hm.
    pose proof (mkdtemp_ok _ _ Hm) as (_ & Hd & _).
    unfold TemporaryDirectory, bind, finally. rewrite Hm.
    destruct (body d w3) as [r w4]. cbn [fst snd rmtree trace].
    repeat split. intros q.
    change (lookup (fs (removed d w4)) (d ++ q) = None). now apply removed_gone.
  - destruct (main_run env w) as (tr & k & tail & Htr & Hst & Hend).
    exists tr, k, tail. split; [exact Htr|]. split; [exact Hst|].
    destruct Hend as [Hr Hx | w1 k Hr Hk Hw Hx | w1 w2 k Hr Hk Hw Hm Hx
                     | w1 w2 d w3 k Hr Hk Hw Hm Hnew Hc Hx Hgone
                     | w1 w2 d w3 w4 k Hr Hk Hw Hm Hnew Hc Hx0 Hx1 Hgone].
    + split; [now left|]. split; [congruence|].
      intros v1 v2 d v3 Hr'. clash.
    + split; [now left|]. split; [congruence|].
      intros v1 v2 d v3 Hr' Hw'. same_stage. clash.
    + split; [now left|]. split; [congruence|].
      intros v1 v2 d v3 Hr' Hw' Hm'. same_stage. congruence.
    + pose proof (mkdtemp_ok _ _ Hm) as (Hd & _).
      assert (Hroot : lookup (fs (snd (main env w))) d = None)
        by (rewrite <- (app_nil_r d); apply Hgone).
      split; [right; left; now rewrite Hd|]. split.
      * intros _. rewrite <- Hd. split; [exact Hroot|]. split; [apply Hgone | exact Hgone].
      * intros v1 v2 d' v3 Hr' Hw'. same_stage. intros Hm'.
        assert (d' = d) as -> by congruence.
        assert (v3 = w3) as -> by congruence.
        split; [exact Hd|]. split; [exact Hnew|]. split; [eexists; split; reflexivity|].
        split; [exact Hroot | apply Hgone].
    + pose proof (mkdtemp_ok _ _ Hm) as (Hd & _).
      assert (Hroot : lookup (fs (snd (main env w))) d = None)
        by (rewrite <- (app_nil_r d); apply Hgone).
      split; [right; right; now rewrite Hd|]. split.
      * intros _. rewrite <- Hd. split; [exact Hroot|]. split; [apply Hgone | exact Hgone].
      * intros v1 v2 d' v3 Hr' Hw'. same_stage. intros Hm'.
        assert (d' = d) as -> by congruence.
        assert (v3 = w3) as -> by congruence.
        split; [exact Hd|]. split; [exact Hnew|]. split; [eexists; split; reflexivity|].
        split; [exact Hroot | apply Hgone].
Qed.

(** ** The identifier matcher *)

(** C5.  The identifier matcher is what the line loop of the extractor does
    with a marker line (the search with [GUID_REGEX], the upper-casing of
    the match and the return).  For every marker line: if the line has a
    substring of the 8-4-4-4-12 hexadecimal form, the loop shows the line,
    prints and returns at once the leftmost such substring in upper case,
    itself of that form and without lower-case letters, whatever lines
    follow; if the line has no such substring, nothing is returned for it:
    the loop goes on with the following lines, and answers [None] when
    there are none.  The extractor, given a log query that exits with
    status 0 and whose output starts with the line, answers the same. *)
Theorem identifier_matcher (s : str) (rest : list str) (w : World) :
  contains BLDB_FILENAME s = true ->
  (forall pre g post, s = pre ++ g ++ post -> is_guid g ->
     exists pre' g' post',
       leftmost_guid s pre' g' post'
       /\ scan_lines (s :: rest) w
          = (Ok (Some (upper g')),
             printed (lit "[" ++ check_mark ++ lit "] GUID extracted: " ++ upper g')
                     (shown s w))
       /\ is_guid (upper g')
       /\ Forall (fun c => In c (lit "0123456789ABCDEF-")) (upper g'))
  /\ (forall pre g post, leftmost_guid s pre g post ->
        fst (scan_lines (s :: rest) w) = Ok (Some (upper g)))
  /\ ((~ exists pre g post, s = pre ++ g ++ post /\ is_guid g) ->
        scan_lines (s :: rest) w = scan_lines rest (shown s w)
        /\ fst (scan_lines [s] w) = Ok None)
  /\ (forall env archive_path out err,
        result (react env (spawned w)) = CompletedProcess 0 out err ->
        splitlines (strip out) = s :: rest ->
        (forall pre g post, leftmost_guid s pre g post ->
           fst (extract_guid_from_archive env archive_path w) = Ok (Some (upper g)))
        /\ ((~ exists pre g post, s = pre ++ g ++ post /\ is_guid g) ->
            fst (extract_guid_from_archive env archive_path w)
            = fst (scan_lines rest w))).
Proof.
  intros Hc.
  assert (Hstep : forall tl,
             scan_lines (s :: tl) w =
             match Re.search GUID_REGEX s with
             | Some m =>
                 (Ok (Some (upper m)),
                  printed (lit "[" ++ check_mark ++ lit "] GUID extracted: " ++ upper m)
                          (shown s w))
             | None => scan_lines tl (shown s w)
             end).
  { intros tl. rewrite scan_lines_cons, Hc.
    destruct (Re.search GUID_REGEX s); reflexivity. }
  assert (Hleft : forall pre g post,
             leftmost_guid s pre g post -> Re.search GUID_REGEX s = Some g).
  { intros pre g post Hl. apply search_GUID_REGEX_some. eauto. }
  assert (Hnone : (~ exists pre g post, s = pre ++ g ++ post /\ is_guid g) ->
                  Re.search GUID_REGEX s = None).
  { apply search_GUID_REGEX_none. }
  split; [|split; [|split]].
  - intros pre g post Hs Hg.
    destruct (Re.search GUID_REGEX s) as [m|] eqn:Hm.
    + destruct (proj1 (search_GUID_REGEX_some s m) Hm) as (pre' & post' & Hl).
      exists pre', m, post'. split; [exact Hl|].
      split; [rewrite Hstep; reflexivity|].
      destruct Hl as (_ & Hgm & _). now apply upper_guid.
    + exfalso. apply search_GUID_REGEX_none in Hm. apply Hm. now exists pre, g, post.
  - intros pre g post Hl. rewrite Hstep, (Hleft _ _ _ Hl). reflexivity.
  - intros Hno. rewrite !Hstep, (Hnone Hno). split; reflexivity.
  - intros env archive_path out err Hres Hout.
    rewrite extract_guid_from_archive_value, Hres. cbn [Z.eqb]. rewrite Hout.
    rewrite <- (scan_lines_result (s :: rest) w). split.
    + intros pre g post Hl. rewrite Hstep, (Hleft _ _ _ Hl). reflexivity.
    + intros Hno. rewrite Hstep, (Hnone Hno).
      now rewrite !scan_lines_result.
Qed.

Lemma identifier_matcher_witness :
  contains BLDB_FILENAME ex_guid_line = true
  /\ fst (scan_lines [ex_guid_line] ex_empty_world)
     = Ok (Some (upper (lit "1234abcd-5678-90ef-abcd-1234567890ab"))).
Proof.
  assert (Hc : contains BLDB_FILENAME ex_guid_line = true)
    by (vm_compute; reflexivity).
  assert (Hs : Re.search GUID_REGEX ex_guid_line
               = Some (lit "1234abcd-5678-90ef-abcd-1234567890ab"))
    by (vm_compute; reflexivity).
  split; [exact Hc|].
  destruct (proj1 (search_GUID_REGEX_some _ _) Hs) as (pre & post & Hl).
  exact (proj1 (proj2 (identifier_matcher ex_guid_line [] ex_empty_world Hc))
               pre _ post Hl).
Defined.
